(** * Magi front end: the video-generation job controller

    A shallow embedding of [src/frontend/src/App.js], component
    [VideoGeneratorPage] inside [KhanAcademyApp]: the diagnostic log
    ([addDebugLog]), the submission exchange ([startVideoGeneration]),
    the status query ([pollVideoStatus]), the driver
    ([realVideoGeneration]) with its interval callback and its timeout
    callback, the submit command ([handleSubmit]) behind the "Generate
    Video" button, and the other controls of the page.

    React state is a record that the setters overwrite. The state of
    [KhanAcademyApp] (form, flags, progress, result, error) lives as
    long as the application; [debugLogs] and [jobId] are state of
    [VideoGeneratorPage] and are lost when the page is left: every
    handler writes them through the setters of the page instance whose
    render created it, and React drops such a write once that instance
    is gone. The variables that a closure captures ([pollCount],
    [consecutiveErrors], the [isGenerating] of the render that
    created the closure) are kept per run. JavaScript exceptions are a
    completion value threaded by a small monad. What the network answers
    is an input of the step in which the answer arrives, as the JSON
    value that [response.json()] gives.

    The page is a transition system over events. Its initial state is
    the application at the first visit of the page (the application
    starts on its home page and holds nothing until then). An [async] handler
    runs up to its [await fetch(..)] in one step and from the answer on
    in a later step, so that answers arrive at any time: late, out of
    order, after the interval was cleared, after the page was left. The
    interval ticks every 3 s and the timeout is due after 900 s, so at
    most 300 ticks start; the timeout may fire after fewer, since a
    browser delays and drops ticks of a page in the background.
    What a handler does after a later [await] than that of its request
    ([response.json()], [response.text()], and [checkAllJobs] inside
    the interval callback) is taken together with the step of the
    answer. [testBackendConnection] and the "List Jobs" button, which
    only write to the log, are taken as one step each. Each render shows
    the current state; what React makes of a value that it cannot
    render (a [current_step] that is an object) is not modelled. The
    message of the TypeError for reading a property of [null] is that
    of V8. *)

From Stdlib Require Import QArith Qcanon.
From stdpp Require Import base list strings numbers option pretty.

Close Scope Qc_scope.
Close Scope Q_scope.
Open Scope string_scope.
Open Scope list_scope.

(** ** JavaScript values used by the component *)

(** What [JSON.parse] can give. A number is the rational that its
    literal denotes. *)
#[warnings="-register-all"]
Inductive Json :=
  | JNull
  | JBool (b : bool)
  | JNumber (x : Qc)
  | JString (s : string)
  | JArray (items : list Json)
  | JObject (fields : list (string * Json)).

Definition JInt (z : Z) : Json := JNumber (Qc_of_Z z).

(** The value of key [k] among the members of an object: the last
    member of that name, as [JSON.parse] keeps it. *)
Fixpoint member (k : string) (fields : list (string * Json)) : option Json :=
  match fields with
  | [] => None
  | (k', v) :: rest =>
      match member k rest with
      | Some v' => Some v'
      | None => if String.eqb k' k then Some v else None
      end
  end.

(** [v.k] for a value [v] that is not [null]: [None] is [undefined].
    None of the keys that the component reads is a property of a
    string, a number, a boolean or an array. *)
Definition js_get (k : string) (v : Json) : option Json :=
  match v with
  | JObject fields => member k fields
  | _ => None
  end.

(** The message of the TypeError for [null.k] (as V8 words it). *)
Definition type_error (k : string) : string :=
  "Cannot read properties of null (reading '" +:+ k +:+ "')".

(** Truthiness of a value that may be [undefined]. *)
Definition js_truthy (a : option Json) : bool :=
  match a with
  | None | Some JNull => false
  | Some (JBool b) => b
  | Some (JNumber x) => negb (bool_decide (x = Qc_of_Z 0))
  | Some (JString s) => negb (String.eqb s "")
  | Some (JArray _) | Some (JObject _) => true
  end.

(** [a === s] for a string literal [s]. *)
Definition js_is (a : option Json) (s : string) : bool :=
  match a with
  | Some (JString s') => String.eqb s' s
  | _ => false
  end.

(** [a || b] on strings: the empty string is falsy. *)
Definition js_or (a b : string) : string :=
  match a with
  | EmptyString => b
  | String _ _ => a
  end.

(** The topic is kept as its UTF-16 code units, the alphabet on which
    [String.prototype.trim] is defined. *)
Definition jsstring : Type := list N.

Definition utf16_of_ascii (s : string) : jsstring :=
  Ascii.N_of_ascii <$> String.list_ascii_of_string s.

(** ECMAScript WhiteSpace and LineTerminator code points (all in the
    basic plane, hence single code units). *)
Definition js_whitespace (c : N) : bool :=
  ((9 <=? c) && (c <=? 13) || (c =? 32) || (c =? 160) || (c =? 5760)
   || (8192 <=? c) && (c <=? 8202) || (c =? 8232) || (c =? 8233)
   || (c =? 8239) || (c =? 8287) || (c =? 12288) || (c =? 65279))%N.

Fixpoint trimStart (s : jsstring) : jsstring :=
  match s with
  | [] => []
  | c :: s' => if js_whitespace c then trimStart s' else s
  end.

Definition trimEnd (s : jsstring) : jsstring :=
  reverse (trimStart (reverse s)).

Definition trim (s : jsstring) : jsstring := trimEnd (trimStart s).

(** [!s.trim()] *)
Definition blank (s : jsstring) : bool :=
  match trim s with
  | [] => true
  | _ :: _ => false
  end.

(** ** The diagnostic log *)

Inductive Severity := info | success | warning | error_.

Record DebugLog := mkDebugLog {
  log_time : string;
  log_message : string;
  log_type : Severity
}.

(** [a.slice(-n)]: the last [n] elements, all of them when there are
    fewer. *)
Definition slice_last {A} (n : nat) (a : list A) : list A :=
  drop (length a - n) a.

(** The updater that [addDebugLog] hands to [setDebugLogs]:
    [prev => [...prev.slice(-20), entry]]. *)
Definition pushDebugLog (prev : list DebugLog) (entry : DebugLog)
  : list DebugLog :=
  slice_last 20 prev ++ [entry].

(** ** Requests and answers *)

Definition API_BASE_URL : string := "http://localhost:8000".

Record FormData := mkFormData {
  topic : jsstring;
  level : Z;
  duration : Z;
  subtitleStyle : string;
  wpm : Z;
  dryRun : bool
}.

Record VideoRequest := mkVideoRequest {
  vr_topic : jsstring;
  vr_level : Z;
  vr_duration : Z;
  vr_subtitle_style : string;
  vr_wpm : Z;
  vr_dry_run : bool
}.

Definition videoRequest_of (f : FormData) : VideoRequest :=
  {| vr_topic := topic f; vr_level := level f; vr_duration := duration f;
     vr_subtitle_style := subtitleStyle f; vr_wpm := wpm f;
     vr_dry_run := dryRun f |}.

(** A request that left the browser: the submission with the object
    that was serialised and the body that was sent, a status query with
    the job id that its URL was built from, the job list. *)
Inductive Request :=
  | PostGenerateVideo (videoRequest : VideoRequest) (body : string)
  | GetVideoStatus (job : option Json)
  | GetJobs.

(** What [await fetch(..)] gives: the promise rejects, or a response
    arrives with its status code, its body as [text()] reads it and as
    [json()] reads it ([inl] when [json()] rejects, with the message). *)
Inductive Fetched (B : Type) :=
  | FetchRejected (message : string)
  | FetchResponse (code : N) (text : string) (json : string + B).
Arguments FetchRejected {B} message.
Arguments FetchResponse {B} & code text json.
Arguments inr {A B} & _.

(** [response.ok] *)
Definition response_ok (code : N) : bool := ((200 <=? code) && (code <=? 299))%N.

(** The body of the answer to the submission as the service documents
    it: [job_id] on success, [detail] on rejection. *)
Record SubmitBody := mkSubmitBody {
  job_id : option string;
  detail : option string
}.

Definition json_of_submit (b : SubmitBody) : Json :=
  JObject (from_option (λ j, [("job_id", JString j)]) [] (job_id b)
           ++ from_option (λ d, [("detail", JString d)]) [] (detail b)).
Coercion json_of_submit : SubmitBody >-> Json.

(** The body of the answer to a status query as the service documents
    it. *)
Record JobStatus := mkJobStatus {
  status : string;
  st_progress : option Z;
  current_step : option string;
  st_error : option string
}.

Definition json_of_status (st : JobStatus) : Json :=
  JObject ([("status", JString (status st))]
           ++ from_option (λ p, [("progress", JInt p)]) [] (st_progress st)
           ++ from_option (λ c, [("current_step", JString c)]) []
                (current_step st)
           ++ from_option (λ e, [("error", JString e)]) [] (st_error st)).
Coercion json_of_status : JobStatus >-> Json.

Record GeneratedVideo := mkGeneratedVideo {
  gv_title : jsstring;
  gv_duration : string;
  gv_jobId : option Json;
  downloadUrl : string;
  gv_status : string
}.

(** ** React state and the browser around it *)

Record World := mkWorld {
  formData : FormData;
  backendConnected : bool;
  isGenerating : bool;
  progress : Json;
  currentStep : Json;
  generatedVideo : option GeneratedVideo;
  error : string;
  debugLogs : list DebugLog;           (* of the instance on the screen *)
  jobId : option Json;                 (* of the instance on the screen *)
  requests : list Request;             (* requests issued so far, oldest first *)
  dateReads : nat;                     (* how often [new Date()] was read *)
  unhandled : list string;             (* rejections that no handler caught *)
  mounted : bool;                      (* [VideoGeneratorPage] is on the screen *)
  instance : nat                       (* which instance of it, counted from 0 *)
}.

Definition setFormData v (w : World) : World :=
  mkWorld v (backendConnected w) (isGenerating w) (progress w)
    (currentStep w) (generatedVideo w) (error w) (debugLogs w) (jobId w)
    (requests w) (dateReads w) (unhandled w) (mounted w) (instance w).
Definition setBackendConnected v (w : World) : World :=
  mkWorld (formData w) v (isGenerating w) (progress w) (currentStep w)
    (generatedVideo w) (error w) (debugLogs w) (jobId w) (requests w)
    (dateReads w) (unhandled w) (mounted w) (instance w).
Definition setIsGenerating v (w : World) : World :=
  mkWorld (formData w) (backendConnected w) v (progress w) (currentStep w)
    (generatedVideo w) (error w) (debugLogs w) (jobId w) (requests w)
    (dateReads w) (unhandled w) (mounted w) (instance w).
Definition setProgress v (w : World) : World :=
  mkWorld (formData w) (backendConnected w) (isGenerating w) v
    (currentStep w) (generatedVideo w) (error w) (debugLogs w) (jobId w)
    (requests w) (dateReads w) (unhandled w) (mounted w) (instance w).
Definition setCurrentStep v (w : World) : World :=
  mkWorld (formData w) (backendConnected w) (isGenerating w) (progress w) v
    (generatedVideo w) (error w) (debugLogs w) (jobId w) (requests w)
    (dateReads w) (unhandled w) (mounted w) (instance w).
Definition setGeneratedVideo v (w : World) : World :=
  mkWorld (formData w) (backendConnected w) (isGenerating w) (progress w)
    (currentStep w) v (error w) (debugLogs w) (jobId w) (requests w)
    (dateReads w) (unhandled w) (mounted w) (instance w).
Definition setError v (w : World) : World :=
  mkWorld (formData w) (backendConnected w) (isGenerating w) (progress w)
    (currentStep w) (generatedVideo w) v (debugLogs w) (jobId w)
    (requests w) (dateReads w) (unhandled w) (mounted w) (instance w).
Definition setDebugLogs v (w : World) : World :=
  mkWorld (formData w) (backendConnected w) (isGenerating w) (progress w)
    (currentStep w) (generatedVideo w) (error w) v (jobId w) (requests w)
    (dateReads w) (unhandled w) (mounted w) (instance w).
Definition setJobId v (w : World) : World :=
  mkWorld (formData w) (backendConnected w) (isGenerating w) (progress w)
    (currentStep w) (generatedVideo w) (error w) (debugLogs w) v
    (requests w) (dateReads w) (unhandled w) (mounted w) (instance w).
Definition setRequests v (w : World) : World :=
  mkWorld (formData w) (backendConnected w) (isGenerating w) (progress w)
    (currentStep w) (generatedVideo w) (error w) (debugLogs w) (jobId w) v
    (dateReads w) (unhandled w) (mounted w) (instance w).
Definition setDateReads v (w : World) : World :=
  mkWorld (formData w) (backendConnected w) (isGenerating w) (progress w)
    (currentStep w) (generatedVideo w) (error w) (debugLogs w) (jobId w)
    (requests w) v (unhandled w) (mounted w) (instance w).
Definition setUnhandled v (w : World) : World :=
  mkWorld (formData w) (backendConnected w) (isGenerating w) (progress w)
    (currentStep w) (generatedVideo w) (error w) (debugLogs w) (jobId w)
    (requests w) (dateReads w) v (mounted w) (instance w).
Definition setMounted v (w : World) : World :=
  mkWorld (formData w) (backendConnected w) (isGenerating w) (progress w)
    (currentStep w) (generatedVideo w) (error w) (debugLogs w) (jobId w)
    (requests w) (dateReads w) (unhandled w) v (instance w).
Definition setInstance v (w : World) : World :=
  mkWorld (formData w) (backendConnected w) (isGenerating w) (progress w)
    (currentStep w) (generatedVideo w) (error w) (debugLogs w) (jobId w)
    (requests w) (dateReads w) (unhandled w) (mounted w) v.

(** The state of [KhanAcademyApp] at its start, with
    [VideoGeneratorPage] on the screen for the first time. Before the
    page is first shown nothing of the controller exists; the health
    check, which runs from the start of the application, is an event of
    its own. *)
Definition initialWorld : World :=
  {| formData := {| topic := []; level := 2; duration := 5;
                    subtitleStyle := "modern"; wpm := 150; dryRun := false |};
     backendConnected := false;
     isGenerating := false;
     progress := JInt 0;
     currentStep := JString "";
     generatedVideo := None;
     error := "";
     debugLogs := [];
     jobId := Some JNull;
     requests := [];
     dateReads := 0;
     unhandled := [];
     mounted := true;
     instance := 0 |}.

(** Instance [page] of [VideoGeneratorPage] is on the screen. *)
Definition shown (page : nat) (w : World) : bool :=
  mounted w && (instance w =? page)%nat.

(** The setters of instance [page]: React drops the update when that
    instance is no longer on the screen. *)
Definition page_setDebugLogs (page : nat)
    (update : list DebugLog → list DebugLog) (w : World) : World :=
  setDebugLogs (if shown page w then update (debugLogs w) else debugLogs w) w.

Definition page_setJobId (page : nat) (v : option Json) (w : World) : World :=
  setJobId (if shown page w then v else jobId w) w.

(** The variables of one polling loop: the [let]s and [const]s declared
    by [realVideoGeneration] after the submission succeeded, together
    with the two timers it starts and the status queries that are on
    their way, named by the poll that issued them. *)
Record Loop := mkLoop {
  currentJobId : option Json;
  pollInterval : positive;        (* the handle that [setInterval] returned *)
  pollCount : nat;
  consecutiveErrors : nat;
  intervalActive : bool;          (* the interval has not been cleared *)
  timeoutPending : bool;          (* the 15 minute timeout has not fired *)
  inFlight : list nat             (* the polls whose status query is awaited *)
}.

Definition setPollCount v (l : Loop) : Loop :=
  mkLoop (currentJobId l) (pollInterval l) v (consecutiveErrors l)
    (intervalActive l) (timeoutPending l) (inFlight l).
Definition setConsecutiveErrors v (l : Loop) : Loop :=
  mkLoop (currentJobId l) (pollInterval l) (pollCount l) v
    (intervalActive l) (timeoutPending l) (inFlight l).
Definition setIntervalActive v (l : Loop) : Loop :=
  mkLoop (currentJobId l) (pollInterval l) (pollCount l)
    (consecutiveErrors l) v (timeoutPending l) (inFlight l).
Definition setTimeoutPending v (l : Loop) : Loop :=
  mkLoop (currentJobId l) (pollInterval l) (pollCount l)
    (consecutiveErrors l) (intervalActive l) v (inFlight l).
Definition setInFlight v (l : Loop) : Loop :=
  mkLoop (currentJobId l) (pollInterval l) (pollCount l)
    (consecutiveErrors l) (intervalActive l) (timeoutPending l) v.

Definition maxConsecutiveErrors : nat := 3.

(** The interval ticks every 3000 ms and the timeout is due after
    900000 ms: no more ticks than this start. *)
Definition maxTicks : nat := Eval vm_compute in Z.to_nat (900000 / 3000).

(** Timer handles are integers greater than zero, so [if (pollInterval)]
    holds for every handle, cleared or not. *)
Definition handle_truthy (h : positive) : bool := negb (Z.pos h =? 0)%Z.

(** ** Completions: a handler returns or throws *)

(** An exception is kept as its [message]. *)
Inductive Completion (A : Type) :=
  | Normal (a : A)
  | Throw (message : string).
Arguments Normal {A} a.
Arguments Throw {A} message.

(** A handler with local variables of type [L]. *)
Definition Js (L A : Type) : Type := World * L → Completion A * (World * L).

Global Instance Js_ret {L} : MRet (Js L) := λ A a s, (Normal a, s).
Global Instance Js_bind {L} : MBind (Js L) := λ A B k m s,
  match m s with
  | (Normal a, s') => k a s'
  | (Throw e, s') => (Throw e, s')
  end.

Definition throw {L A} (message : string) : Js L A := λ s, (Throw message, s).

(** [try { body } catch (e) { handler e }] *)
Definition try_catch {L A} (body : Js L A) (handler : string → Js L A)
  : Js L A := λ s,
  match body s with
  | (Normal a, s') => (Normal a, s')
  | (Throw e, s') => handler e s'
  end.

(** A React setter, or any other effect on the world. *)
Definition react {L} (f : World → World) : Js L unit :=
  λ '(w, l), (Normal (), (f w, l)).

Definition assign {L} (f : L → L) : Js L unit :=
  λ '(w, l), (Normal (), (w, f l)).

Definition read {L A} (f : L → A) : Js L A :=
  λ '(w, l), (Normal (f l), (w, l)).

(** [v.k], which throws when [v] is [null]. *)
Definition js_field {L} (k : string) (v : Json) : Js L (option Json) :=
  match v with
  | JNull => throw (type_error k)
  | _ => mret (js_get k v)
  end.

(** The world after request [r] left the browser. *)
Definition requested (r : Request) (w : World) : World :=
  setRequests (requests w ++ [r]) w.

Definition fetch {L} (r : Request) : Js L unit := react (requested r).

Definition clearInterval : Js Loop unit := assign (setIntervalActive false).

(** The opaque list that [/api/jobs] answers, given by its indented
    rendering [JSON.stringify(data, null, 2)]. *)
Definition JobsBody : Type := string.

(** What [/health] answers, given by its rendering
    [JSON.stringify(data)]. *)
Definition HealthBody : Type := string.

Section Controller.

(** The host: [new Date().toLocaleTimeString()] at the n-th reading of
    the clock, and [JSON.stringify]. *)
Variable clock : nat → string.
Variable JSON_stringify : ∀ A : Type, A → string.

(** [String(x)] for a number: the digits of an integer that a double
    holds exactly, and otherwise what [JSON.stringify], which renders a
    number in the same way, gives. *)
Definition number_toString (x : Qc) : string :=
  if (Qden (this x) =? 1)%positive
     && (Z.abs (Qnum (this x)) <=? 9007199254740991)%Z
  then pretty (Qnum (this x))
  else JSON_stringify Qc x.

(** [String(v)], as a template literal and [new Error(v)] apply it. *)
Fixpoint js_toString (v : Json) : string :=
  match v with
  | JNull => "null"
  | JBool true => "true"
  | JBool false => "false"
  | JNumber x => number_toString x
  | JString s => s
  | JArray items =>
      (fix join (l : list Json) : string :=
         match l with
         | [] => ""
         | x :: l' =>
             let e := match x with
                      | JNull => ""
                      | _ => js_toString x
                      end in
             match l' with
             | [] => e
             | _ :: _ => e +:+ "," +:+ join l'
             end
         end) items
  | JObject _ => "[object Object]"
  end.

(** A possibly undefined value inside a template literal. *)
Definition js_template (a : option Json) : string :=
  match a with
  | Some v => js_toString v
  | None => "undefined"
  end.

(** The message of [new Error(a || fallback)]. *)
Definition js_or_else (a : option Json) (fallback : string) : string :=
  if js_truthy a then js_template a else fallback.

(** The instance of [VideoGeneratorPage] whose render created the
    handler: its [addDebugLog], [setDebugLogs] and [setJobId] are the
    ones that the handler calls. *)
Variable page : nat.

(** The world after [addDebugLog(message, type)]. *)
Definition logged (message : string) (type : Severity) (w : World) : World :=
  let timestamp := clock (dateReads w) in
  page_setDebugLogs page
    (λ prev, pushDebugLog prev (mkDebugLog timestamp message type))
    (setDateReads (S (dateReads w)) w).

Definition addDebugLog {L} (message : string) (type : Severity) : Js L unit :=
  react (logged message type).

(** [startVideoGeneration], up to its [await fetch(..)]. *)
Definition startVideoGeneration_request {L} (videoRequest : VideoRequest)
  : Js L unit :=
  addDebugLog ("🚀 Starting video generation with request: "
               +:+ JSON_stringify _ videoRequest) info;;
  fetch (PostGenerateVideo videoRequest (JSON_stringify _ videoRequest)).

(** [startVideoGeneration], from the answer of the service on. *)
Definition startVideoGeneration_response {L} (o : Fetched Json)
  : Js L Json :=
  match o with
  | FetchRejected m => throw m
  | FetchResponse code _ json =>
      addDebugLog ("📡 POST /api/generate-video response: " +:+ pretty code)
                  (if response_ok code then success else error_);;
      if negb (response_ok code) then
        match json with
        | inl m => throw m
        | inr errorData =>
            addDebugLog ("❌ Error response: " +:+ JSON_stringify _ errorData)
                        error_;;
            detail ← js_field "detail" errorData;
            throw (js_or_else detail "Failed to start video generation")
        end
      else
        match json with
        | inl m => throw m
        | inr result =>
            addDebugLog ("✅ Generation started: " +:+ JSON_stringify _ result)
                        success;;
            mret result
        end
  end.

(** [pollVideoStatus], up to its [await fetch(..)]. *)
Definition pollVideoStatus_request {L} (jobId : option Json) : Js L unit :=
  addDebugLog ("📊 Polling status for job: " +:+ js_template jobId) info;;
  fetch (GetVideoStatus jobId).

(** [pollVideoStatus], from the answer of the service on. *)
Definition pollVideoStatus_response {L} (jobId : option Json)
    (o : Fetched Json) : Js L Json :=
  match o with
  | FetchRejected m => throw m
  | FetchResponse code text json =>
      addDebugLog ("📡 GET /api/video-status/" +:+ js_template jobId
                   +:+ " response: " +:+ pretty code)
                  (if response_ok code then success else error_);;
      if negb (response_ok code) then
        let errorText := text in
        addDebugLog ("❌ Status poll failed: " +:+ errorText) error_;;
        throw "Failed to get video status"
      else
        match json with
        | inl m => throw m
        | inr result =>
            addDebugLog ("📈 Status update: " +:+ JSON_stringify _ result) info;;
            mret result
        end
  end.

Definition pollVideoStatus {L} (jobId : option Json) (o : Fetched Json)
  : Js L Json :=
  pollVideoStatus_request jobId;;
  pollVideoStatus_response jobId o.

Definition checkAllJobs {L} (o : Fetched JobsBody) : Js L unit :=
  try_catch
    (addDebugLog "🔍 Fetching all jobs for debugging..." info;;
     fetch GetJobs;;
     match o with
     | FetchRejected m => throw m
     | FetchResponse code _ json =>
         if response_ok code then
           match json with
           | inl m => throw m
           | inr data => addDebugLog ("📋 All jobs: " +:+ data) info
           end
         else mret ()
     end)
    (λ error, addDebugLog ("❌ Failed to fetch jobs: " +:+ error) error_).

(** [testBackendConnection]. Its request goes to [/health], which is
    not one of the job endpoints that [requests] records. *)
Definition testBackendConnection {L} (o : Fetched HealthBody) : Js L unit :=
  try_catch
    (addDebugLog "🔍 Testing backend connection..." info;;
     match o with
     | FetchRejected m => throw m
     | FetchResponse _ _ json =>
         match json with
         | inl m => throw m
         | inr data => addDebugLog ("✅ Backend health: " +:+ data) success
         end
     end)
    (λ error, addDebugLog ("❌ Backend connection failed: " +:+ error) error_).

(** The interval callback from the answer of the status query to the
    end of the terminal-state branches (lines 149 to 181). [formData] is
    the form of the render that created the closure. The first read
    of a property of [status] throws when the body was [null]. *)
Definition applyStatus (formData : FormData) (status : Json) : Js Loop unit :=
  assign (setConsecutiveErrors 0);;
  progress ← js_field "progress" status;
  match progress with
  | Some p =>
      react (setProgress p);;
      addDebugLog ("Progress: " +:+ js_toString p +:+ "%") success
  | None => mret ()
  end;;
  current_step ← js_field "current_step" status;
  match current_step with
  | Some step =>
      if js_truthy current_step then react (setCurrentStep step) else mret ()
  | None => mret ()
  end;;
  currentJobId ← read currentJobId;
  tag ← js_field "status" status;
  if js_is tag "completed" then
    addDebugLog "🎉 Video generation completed!" success;;
    clearInterval;;
    react (setGeneratedVideo (Some
      {| gv_title := topic formData;
         gv_duration := pretty (duration formData) +:+ ":00";
         gv_jobId := currentJobId;
         downloadUrl := API_BASE_URL +:+ "/api/video/"
                        +:+ js_template currentJobId;
         gv_status := "completed" |}));;
    react (setCurrentStep (JString "Video ready for download!"));;
    react (setProgress (JInt 100));;
    react (setIsGenerating false)
  else if js_is tag "failed" then
    error ← js_field "error" status;
    addDebugLog ("❌ Video generation failed: " +:+ js_template error) error_;;
    clearInterval;;
    throw (js_or_else error "Video generation failed")
  else mret ().

(** The interval callback, "Log if taking a long time" (lines 183 to
    189). *)
Definition noteSlowGeneration (jobs : Fetched JobsBody) : Js Loop unit :=
  n ← read pollCount;
  if (n =? 10)%nat then
    addDebugLog "⏰ Generation taking longer than expected (30s), but continuing..."
                warning
  else if (n =? 40)%nat then
    addDebugLog "⏰ Generation taking much longer than expected (2min), checking all jobs..."
                warning;;
    checkAllJobs jobs
  else mret ().

(** The [catch (pollError)] block of the interval callback. *)
Definition pollFailed (pollError : string) : Js Loop unit :=
  assign (λ l, setConsecutiveErrors (S (consecutiveErrors l)) l);;
  c ← read consecutiveErrors;
  addDebugLog ("🚨 Poll error " +:+ pretty c +:+ "/"
               +:+ pretty maxConsecutiveErrors +:+ ": " +:+ pollError)
              error_;;
  if (maxConsecutiveErrors <=? c)%nat then
    clearInterval;;
    throw ("Polling failed after " +:+ pretty maxConsecutiveErrors
           +:+ " consecutive errors: " +:+ pollError)
  else mret ().

(** The callback that [realVideoGeneration] hands to [setInterval],
    run in one piece with what the status query (and, at the 40th
    poll, the job list) answers: a tick whose query is answered before
    anything else happens. *)
Definition pollCallback (formData : FormData)
    (o : Fetched Json) (jobs : Fetched JobsBody) : Js Loop unit :=
  try_catch
    (assign (λ l, setPollCount (S (pollCount l)) l);;
     n ← read pollCount;
     currentJobId ← read currentJobId;
     addDebugLog ("📊 Poll attempt " +:+ pretty n +:+ " for job "
                  +:+ js_template currentJobId) info;;
     st ← pollVideoStatus currentJobId o;
     applyStatus formData st;;
     noteSlowGeneration jobs)
    pollFailed.

(** The same callback up to the [await fetch(..)] of its status query:
    this is what a tick of the interval runs. *)
Definition pollCallback_begin : Js Loop unit :=
  assign (λ l, setPollCount (S (pollCount l)) l);;
  n ← read pollCount;
  currentJobId ← read currentJobId;
  addDebugLog ("📊 Poll attempt " +:+ pretty n +:+ " for job "
               +:+ js_template currentJobId) info;;
  pollVideoStatus_request currentJobId.

(** The same callback from the answer to its status query on: this is
    what runs when the answer arrives, whatever happened in between. *)
Definition pollCallback_resume (formData : FormData)
    (o : Fetched Json) (jobs : Fetched JobsBody) : Js Loop unit :=
  try_catch
    (currentJobId ← read currentJobId;
     st ← pollVideoStatus_response currentJobId o;
     applyStatus formData st;;
     noteSlowGeneration jobs)
    pollFailed.

(** The callback that [realVideoGeneration] hands to [setTimeout].
    [isGenerating] is the flag of the render that created the closure,
    not the current React state. *)
Definition timeoutCallback (isGenerating : bool) : Js Loop unit :=
  pollInterval ← read pollInterval;
  if handle_truthy pollInterval then
    addDebugLog "⏰ 15 minute timeout reached" warning;;
    clearInterval;;
    if isGenerating then
      react (setError "Video generation timed out after 15 minutes. The video might still be processing. Check back later.");;
      react (setIsGenerating false)
    else mret ()
  else mret ().

(** [realVideoGeneration], up to the [await] of the submission. Nothing
    in this part throws. *)
Definition realVideoGeneration_begin (formData : FormData) : Js unit unit :=
  react (setIsGenerating true);;
  react (setProgress (JInt 0));;
  react (setError "");;
  react (setGeneratedVideo None);;
  react (page_setDebugLogs page (λ _, []));;
  react (page_setJobId page (Some JNull));;
  let videoRequest := videoRequest_of formData in
  addDebugLog "🚀 Starting video generation process..." info;;
  startVideoGeneration_request videoRequest.

(** [realVideoGeneration], from the answer to the submission on: the
    rest of the [try] block, which starts the two timers, or the
    [catch] block. [handle] is what [setInterval] returns. The result is
    the loop that was started, if any. *)
Definition realVideoGeneration_resume (handle : positive)
    (o : Fetched Json) : Js unit (option Loop) :=
  try_catch
    (startResponse ← startVideoGeneration_response o;
     currentJobId ← js_field "job_id" startResponse;
     react (page_setJobId page currentJobId);;
     addDebugLog ("✅ Job created with ID: " +:+ js_template currentJobId)
                 success;;
     mret (Some {| currentJobId := currentJobId;
                   pollInterval := handle;
                   pollCount := 0;
                   consecutiveErrors := 0;
                   intervalActive := true;
                   timeoutPending := true;
                   inFlight := [] |}))
    (λ err,
     addDebugLog ("💥 Generation failed: " +:+ err) error_;;
     react (setError (js_or err "Failed to generate video. Please try again."));;
     react (setIsGenerating false);;
     mret None).

End Controller.

(** ** The page as a transition system *)

(** How far one invocation of [realVideoGeneration] got. *)
Inductive Phase :=
  | Submitting                   (* awaiting the answer to the submission *)
  | SubmitFailed                 (* left through the [catch] block *)
  | Polling (l : Loop).          (* the timers were started *)

(** One invocation of [realVideoGeneration]: what its closures captured
    from the render that invoked it (the form, the flag, the setters of
    that instance of the page), and how far it got. *)
Record Run := mkRun {
  r_formData : FormData;
  r_isGenerating : bool;
  r_page : nat;
  r_phase : Phase
}.

Record State := mkState {
  world : World;
  runs : list Run                (* invocations, oldest first *)
}.

Definition initialState : State := {| world := initialWorld; runs := [] |}.

Definition loop_of (s : State) (i : nat) : option Loop :=
  match runs s !! i with
  | Some {| r_phase := Polling l |} => Some l
  | _ => None
  end.

(** A rejected promise that nobody awaits. *)
Definition settle (c : Completion unit) (w : World) : World :=
  match c with
  | Normal _ => w
  | Throw m => setUnhandled (unhandled w ++ [m]) w
  end.

(** The events of the controller. A tick of the interval of run [i] is
    [IntervalStarts i]; the answer to the status query of its poll [k]
    arrives as [StatusAnswered i k o jobs], at any later time.
    [IntervalFires i o jobs] is a tick whose query is answered before
    anything else happens. *)
Inductive Event :=
  | Input (edit : FormData → FormData)   (* the user edits the form *)
  | Health (ok : bool)                   (* [checkBackendHealth] answers *)
  | ClickGenerate                        (* the "Generate Video" button *)
  | ClearDebug                           (* "Clear" in the debug console *)
  | Submitted (i : nat) (o : Fetched Json)
  | IntervalStarts (i : nat)
  | StatusAnswered (i k : nat) (o : Fetched Json) (jobs : Fetched JobsBody)
  | IntervalFires (i : nat) (o : Fetched Json) (jobs : Fetched JobsBody)
  | TimeoutFires (i : nat).

Section System.

Variable clock : nat → string.
Variable JSON_stringify : ∀ A : Type, A → string.

(** [realVideoGeneration()] as invoked by a render showing [s]. *)
Definition realVideoGeneration (s : State) : State :=
  let w := world s in
  let '(_, (w', _)) :=
    realVideoGeneration_begin clock JSON_stringify (instance w) (formData w)
      (w, ()) in
  {| world := w';
     runs := runs s ++ [ {| r_formData := formData w;
                            r_isGenerating := isGenerating w;
                            r_page := instance w;
                            r_phase := Submitting |} ] |}.

Definition handleSubmit (s : State) : State :=
  let w := world s in
  if blank (topic (formData w)) then
    {| world := setError "Please enter a topic for your video" w;
       runs := runs s |}
  else if negb (backendConnected w) then
    {| world := setError "Backend is not connected. Please make sure the API server is running." w;
       runs := runs s |}
  else realVideoGeneration s.

(** [disabled=..] of the "Generate Video" button. *)
Definition submit_disabled (w : World) : bool :=
  isGenerating w || blank (topic (formData w)) || negb (backendConnected w).

(** A click on the button: a disabled button does not call its handler. *)
Definition click (s : State) : State :=
  if submit_disabled (world s) then s else handleSubmit s.

Definition handleInputChange (edit : FormData → FormData) (w : World) : World :=
  setError "" (setFormData (edit (formData w)) w).

(** The interval of a loop can tick. *)
Definition ticking (l : Loop) : bool :=
  intervalActive l && (pollCount l <? maxTicks)%nat.

(** One event of the controller. [None]: the event cannot happen in [s]
    (the page is not on the screen, the control is disabled, the timer
    is not running, no answer is awaited). *)
Definition step (s : State) (e : Event) : option State :=
  match e with
  | Input edit =>
      if mounted (world s) && negb (isGenerating (world s)) then
        Some {| world := handleInputChange edit (world s); runs := runs s |}
      else None
  | Health ok =>
      Some {| world := setBackendConnected ok (world s); runs := runs s |}
  | ClickGenerate =>
      if mounted (world s) then Some (click s) else None
  | ClearDebug =>
      if mounted (world s) then
        Some {| world := setDebugLogs [] (world s); runs := runs s |}
      else None
  | Submitted i o =>
      match runs s !! i with
      | Some {| r_formData := f; r_isGenerating := g; r_page := p;
                r_phase := Submitting |} =>
          let '(c, (w', _)) :=
            realVideoGeneration_resume clock JSON_stringify p
              (Pos.of_succ_nat i) o (world s, ()) in
          let phase :=
            match c with
            | Normal (Some l) => Polling l
            | _ => SubmitFailed
            end in
          Some {| world := w'; runs := <[i := mkRun f g p phase]> (runs s) |}
      | _ => None
      end
  | IntervalStarts i =>
      match runs s !! i with
      | Some {| r_formData := f; r_isGenerating := g; r_page := p;
                r_phase := Polling l |} =>
          if ticking l then
            let '(c, (w', l')) :=
              pollCallback_begin clock JSON_stringify p (world s, l) in
            let l'' := setInFlight (inFlight l' ++ [pollCount l']) l' in
            Some {| world := settle c w';
                    runs := <[i := mkRun f g p (Polling l'')]> (runs s) |}
          else None
      | _ => None
      end
  | StatusAnswered i k o jobs =>
      match runs s !! i with
      | Some {| r_formData := f; r_isGenerating := g; r_page := p;
                r_phase := Polling l |} =>
          if bool_decide (k ∈ inFlight l) then
            let '(c, (w', l')) :=
              pollCallback_resume clock JSON_stringify p f o jobs
                (world s, setInFlight (filter (λ j, j ≠ k) (inFlight l)) l) in
            Some {| world := settle c w';
                    runs := <[i := mkRun f g p (Polling l')]> (runs s) |}
          else None
      | _ => None
      end
  | IntervalFires i o jobs =>
      match runs s !! i with
      | Some {| r_formData := f; r_isGenerating := g; r_page := p;
                r_phase := Polling l |} =>
          if ticking l then
            let '(c, (w', l')) :=
              pollCallback clock JSON_stringify p f o jobs (world s, l) in
            Some {| world := settle c w';
                    runs := <[i := mkRun f g p (Polling l')]> (runs s) |}
          else None
      | _ => None
      end
  | TimeoutFires i =>
      match runs s !! i with
      | Some {| r_formData := f; r_isGenerating := g; r_page := p;
                r_phase := Polling l |} =>
          if timeoutPending l then
            let '(c, (w', l')) :=
              timeoutCallback clock p g (world s, setTimeoutPending false l) in
            Some {| world := settle c w';
                    runs := <[i := mkRun f g p (Polling l')]> (runs s) |}
          else None
      | _ => None
      end
  end.

Fixpoint exec (s : State) (tr : list Event) : option State :=
  match tr with
  | [] => Some s
  | e :: tr' =>
      match step s e with
      | Some s' => exec s' tr'
      | None => None
      end
  end.

(** The states that the controller can be in while the page stays on
    the screen. *)
Definition reachable (s : State) : Prop :=
  ∃ tr, exec initialState tr = Some s.

End System.

(** A run whose polling loop is still scheduled. *)
Definition polling (s : State) (i : nat) : Prop :=
  ∃ l, loop_of s i = Some l ∧ intervalActive l = true.

(** A run that is submitting or polling. *)
Definition live (r : Run) : bool :=
  match r_phase r with
  | Submitting => true
  | SubmitFailed => false
  | Polling l => intervalActive l
  end.

(** ** The rest of the page

    The other controls of [VideoGeneratorPage]: the "Create Another"
    button of the result panel, the two buttons of the debug bar, the
    download link; and the navigation of [KhanAcademyApp], which takes
    the page off the screen and puts a new instance of it there. *)

(** [{ ...prev, topic: '' }] *)
Definition clearTopic (f : FormData) : FormData :=
  mkFormData [] (level f) (duration f) (subtitleStyle f) (wpm f) (dryRun f).

(** The [onClick] of "Create Another". *)
Definition createAnother (w : World) : World :=
  setFormData (clearTopic (formData w)) (setGeneratedVideo None w).

(** [handleDownload]: the [href] and the [download] name of the link it
    clicks, if it clicks one. *)
Definition handleDownload (JSON_stringify : ∀ A : Type, A → string)
    (w : World) : option (string * string) :=
  match generatedVideo w with
  | Some v =>
      match downloadUrl v with
      | EmptyString => None
      | String _ _ =>
          Some (downloadUrl v,
                "magi_video_" +:+ js_template JSON_stringify (gv_jobId v)
                +:+ ".mp4")
      end
  | None => None
  end.

(** Leaving the page: its instance and the state of that instance are
    gone. The timers and the requests of its runs go on. *)
Definition leave (w : World) : World := setMounted false w.

(** Coming back: a new instance, with its state as [useState]
    initialises it. *)
Definition enter (w : World) : World :=
  setJobId (Some JNull)
    (setDebugLogs [] (setInstance (S (instance w)) (setMounted true w))).

Inductive PageEvent :=
  | Core (e : Event)
  | CreateAnother                        (* shown with a result *)
  | TestConnection (o : Fetched HealthBody)
  | ListJobs (jobs : Fetched JobsBody)
  | Leave                                (* "Back to Home", the navigation *)
  | Enter.                               (* the navigation, to the page *)

Section Page.

Variable clock : nat → string.
Variable JSON_stringify : ∀ A : Type, A → string.

(** One event of the whole page. *)
Definition step_page (s : State) (e : PageEvent) : option State :=
  match e with
  | Core e => step clock JSON_stringify s e
  | CreateAnother =>
      match generatedVideo (world s) with
      | Some _ =>
          if mounted (world s) then
            Some {| world := createAnother (world s); runs := runs s |}
          else None
      | None => None
      end
  | TestConnection o =>
      if mounted (world s) then
        let '(c, (w', _)) :=
          testBackendConnection clock (instance (world s)) o (world s, ()) in
        Some {| world := settle c w'; runs := runs s |}
      else None
  | ListJobs jobs =>
      if mounted (world s) then
        let '(c, (w', _)) :=
          checkAllJobs clock (instance (world s)) jobs (world s, ()) in
        Some {| world := settle c w'; runs := runs s |}
      else None
  | Leave =>
      if mounted (world s) then
        Some {| world := leave (world s); runs := runs s |}
      else None
  | Enter =>
      if mounted (world s) then None
      else Some {| world := enter (world s); runs := runs s |}
  end.

Fixpoint exec_page (s : State) (tr : list PageEvent) : option State :=
  match tr with
  | [] => Some s
  | e :: tr' =>
      match step_page s e with
      | Some s' => exec_page s' tr'
      | None => None
      end
  end.

(** The states that the page can be in. *)
Definition reachable_page (s : State) : Prop :=
  ∃ tr, exec_page initialState tr = Some s.

End Page.

(** The most recent run. *)
Definition newest (s : State) : option Run := last (runs s).

(** ** Concrete hosts, answers and runs for the examples *)

Definition noon : nat → string := λ _, "12:00:00".
Definition braces : ∀ A : Type, A → string := λ _ _, "{}".

(** A second clock, which shows the number of the reading. *)
Definition counting : nat → string := λ n, pretty n.

Definition derivatives : FormData → FormData :=
  λ f, mkFormData (utf16_of_ascii "derivatives") (level f) (duration f)
         (subtitleStyle f) (wpm f) (dryRun f).

Definition limits : FormData → FormData :=
  λ f, mkFormData (utf16_of_ascii "limits") (level f) (duration f)
         (subtitleStyle f) (wpm f) (dryRun f).

Definition accepted (job : string) : Fetched Json :=
  FetchResponse 200 "" (inr {| job_id := Some job; detail := None |}).

Definition snapshot (tag : string) (p : option Z) : Fetched Json :=
  FetchResponse 200 ""
    (inr {| status := tag; st_progress := p; current_step := None;
            st_error := None |}).

(** A job that is still being worked on. *)
Definition processing (p : Z) : Fetched Json :=
  snapshot "processing" (Some p).

Definition no_jobs : Fetched JobsBody := FetchRejected "unused".

(** A request that never got an answer. *)
Definition unreachable : Fetched Json := FetchRejected "Failed to fetch".

(** The service declines the request (scenario D of the specification). *)
Definition invalid_topic : Fetched Json :=
  FetchResponse 422 ""
    (inr {| job_id := None; detail := Some "invalid topic" |}).

(** The page after the user typed a topic, the health check succeeded,
    the button was clicked and the service answered with job "job-1". *)
Definition started : list Event :=
  [Input derivatives; Health true; ClickGenerate; Submitted 0 (accepted "job-1")].

(** A series of ticks of run [i], each answered before anything else
    happens, with what the status query and the job list answer. *)
Definition polls (i : nat) (os : list (Fetched Json * Fetched JobsBody))
  : list Event :=
  (λ o, IntervalFires i o.1 o.2) <$> os.

(** Calls of [addDebugLog] in a row by the page on the screen. *)
Definition log_all (clock : nat → string) (entries : list (string * Severity))
    (w : World) : World :=
  foldl (λ w e, fst (snd (addDebugLog clock (instance w) (L := unit)
                            e.1 e.2 (w, ())))) w
        entries.

(** Twenty-one entries for the diagnostic log, numbered from 1. *)
Definition numbered : list (string * Severity) :=
  (λ k : nat, (pretty k, info)) <$> seq 1 21.

(** The entries that calls of [addDebugLog] build, the first one at
    clock reading [n]. *)
Fixpoint stamped (clock : nat → string) (n : nat)
    (entries : list (string * Severity)) : list DebugLog :=
  match entries with
  | [] => []
  | e :: entries' => mkDebugLog (clock n) e.1 e.2 :: stamped clock (S n) entries'
  end.

(** The page once the topic is typed and the backend is known to be
    up, and once job "job-1" is being polled. *)
Definition ready_state : State :=
  default initialState
    (exec noon braces initialState [Input derivatives; Health true]).

Definition polling_state : State :=
  default initialState (exec noon braces initialState started).

Definition job1_loop : Loop :=
  {| currentJobId := Some (JString "job-1"); pollInterval := 1; pollCount := 0;
     consecutiveErrors := 0; intervalActive := true; timeoutPending := true;
     inFlight := [] |}.

(** ** Summaries used in the proofs

    The handlers write a diagnostic entry at almost every line. The
    functions below say what a handler does to everything else; each
    is proved equal to the handler it summarises. *)

(** The world without its diagnostics: log, clock readings, request
    trace. *)
Definition quiet (w : World) : World :=
  setDebugLogs [] (setDateReads 0 (setRequests [] w)).

(** What [pollVideoStatus] gives its caller: a snapshot, or an
    exception with its message. *)
Inductive Answer :=
  | Failure (message : string)
  | Snapshot (st : Json).

Definition answer (o : Fetched Json) : Answer :=
  match o with
  | FetchRejected m => Failure m
  | FetchResponse code _ json =>
      if response_ok code then
        match json with
        | inl m => Failure m
        | inr st => Snapshot st
        end
      else Failure "Failed to get video status"
  end.


(** What the interval callback makes of a snapshot: it cannot read it
    (the body is [null]), it reports completion, it reports failure,
    or the job goes on. *)
Inductive Verdict := Unreadable | Completed | Failed | Running.

Definition verdict (st : Json) : Verdict :=
  match st with
  | JNull => Unreadable
  | _ =>
      if js_is (js_get "status" st) "completed" then Completed
      else if js_is (js_get "status" st) "failed" then Failed
      else Running
  end.

(** The [catch] block of the interval callback, on the loop. *)
Definition caught (l : Loop) : Loop :=
  let c := S (consecutiveErrors l) in
  if (maxConsecutiveErrors <=? c)%nat
  then setIntervalActive false (setConsecutiveErrors c l)
  else setConsecutiveErrors c l.

(** How the [catch] block completes when it caught [m]. *)
Definition rethrown (l : Loop) (m : string) : Completion unit :=
  if (maxConsecutiveErrors <=? S (consecutiveErrors l))%nat
  then Throw ("Polling failed after " +:+ pretty maxConsecutiveErrors
              +:+ " consecutive errors: " +:+ m)
  else Normal ().

(** The interval callback from the answer on, on the loop. *)
Definition answered_loop (l : Loop) (a : Answer) : Loop :=
  match a with
  | Failure _ => caught l
  | Snapshot st =>
      let l2 := setConsecutiveErrors 0 l in
      match verdict st with
      | Unreadable => caught l2
      | Completed => setIntervalActive false l2
      | Failed => caught (setIntervalActive false l2)
      | Running => l2
      end
  end.

(** How the interval callback completes. *)
Definition answered_completion (l : Loop) (a : Answer) : Completion unit :=
  match a with
  | Failure m => rethrown l m
  | Snapshot _ => Normal ()
  end.

(** The whole interval callback, on the loop. *)
Definition poll_loop (l : Loop) (a : Answer) : Loop :=
  answered_loop (setPollCount (S (pollCount l)) l) a.

Definition poll_completion (l : Loop) (a : Answer) : Completion unit :=
  answered_completion l a.

(** What a snapshot publishes before its status tag is looked at. *)
Definition projected (st : Json) (w : World) : World :=
  let w1 := match js_get "progress" st with
            | Some p => setProgress p w
            | None => w
            end in
  match js_get "current_step" st with
  | Some step =>
      if js_truthy (Some step) then setCurrentStep step w1 else w1
  | None => w1
  end.

Section Summaries.
Variable JSON_stringify : ∀ A : Type, A → string.

(** The result that a completed poll records for the run that
    captured form [f] and polls with loop [l]. *)
Definition video_of (f : FormData) (l : Loop) : GeneratedVideo :=
  {| gv_title := topic f;
     gv_duration := pretty (duration f) +:+ ":00";
     gv_jobId := currentJobId l;
     downloadUrl := API_BASE_URL +:+ "/api/video/"
                    +:+ js_template JSON_stringify (currentJobId l);
     gv_status := "completed" |}.

(** The interval callback from the answer on, on the world without
    diagnostics. *)
Definition answered_world (f : FormData) (l : Loop) (a : Answer) (w : World)
  : World :=
  match a with
  | Failure _ => w
  | Snapshot st =>
      match verdict st with
      | Unreadable => w
      | Completed =>
          setIsGenerating false
            (setProgress (JInt 100)
               (setCurrentStep (JString "Video ready for download!")
                  (setGeneratedVideo (Some (video_of f l)) (projected st w))))
      | Failed | Running => projected st w
      end
  end.

(** What [startVideoGeneration] and the read of [job_id] give
    [realVideoGeneration]: the job id, or an exception with its
    message. *)
Definition submission (o : Fetched Json) : Completion (option Json) :=
  match o with
  | FetchRejected m => Throw m
  | FetchResponse code _ (inl m) => Throw m
  | FetchResponse code _ (inr body) =>
      if response_ok code then
        match body with
        | JNull => Throw (type_error "job_id")
        | _ => Normal (js_get "job_id" body)
        end
      else
        match body with
        | JNull => Throw (type_error "detail")
        | _ => Throw (js_or_else JSON_stringify (js_get "detail" body)
                        "Failed to start video generation")
        end
  end.

End Summaries.

(** The requests of the interval callback from the answer on: the job
    list, when the callback gets as far as its 40th-poll check at a
    poll count of 40. *)
Definition answered_requests (l : Loop) (a : Answer) : list Request :=
  match a with
  | Failure _ => []
  | Snapshot st =>
      match verdict st with
      | Completed | Running => if (pollCount l =? 40)%nat then [GetJobs] else []
      | Unreadable | Failed => []
      end
  end.

(** The requests that a tick answered at once issues. *)
Definition poll_requests (l : Loop) (a : Answer) : list Request :=
  GetVideoStatus (currentJobId l)
  :: answered_requests (setPollCount (S (pollCount l)) l) a.

(** The loop after a tick: one more poll, whose query is on its way. *)
Definition ticked (l : Loop) : Loop :=
  setInFlight (inFlight l ++ [S (pollCount l)])
    (setPollCount (S (pollCount l)) l).

(** The loop without the query of poll [k]. *)
Definition landed (k : nat) (l : Loop) : Loop :=
  setInFlight (filter (λ j, j ≠ k) (inFlight l)) l.

(** The loop that [realVideoGeneration] starts for run [i]. *)
Definition new_loop (i : nat) (job : option Json) : Loop :=
  {| currentJobId := job; pollInterval := Pos.of_succ_nat i; pollCount := 0;
     consecutiveErrors := 0; intervalActive := true; timeoutPending := true;
     inFlight := [] |}.

(** The timeout callback, on the world without diagnostics. *)
Definition timeout_world (isGenerating : bool) (w : World) : World :=
  if isGenerating then
    setIsGenerating false
      (setError "Video generation timed out after 15 minutes. The video might still be processing. Check back later." w)
  else w.

(** What steers the page: the runs, the world without its
    diagnostics, and the requests issued so far. *)
Definition control_of (s : State) : list Run * World * list Request :=
  (runs s, quiet (world s), requests (world s)).

(** One event of the page on what steers it; [step_page_control] below
    proves that every event of the page does exactly this, whatever
    the clock, the job list and the health endpoint say. *)
Definition control_step (JSON_stringify : ∀ A : Type, A → string)
    (a : list Run * World * list Request) (e : PageEvent)
  : option (list Run * World * list Request) :=
  let '(rs, q, rq) := a in
  match e with
  | Core (Input edit) =>
      if mounted q && negb (isGenerating q)
      then Some (rs, handleInputChange edit q, rq) else None
  | Core (Health ok) => Some (rs, setBackendConnected ok q, rq)
  | Core ClickGenerate =>
      if mounted q then
        if submit_disabled q then Some (rs, q, rq)
        else Some (rs ++ [mkRun (formData q) (isGenerating q) (instance q)
                                Submitting],
                   setJobId (Some JNull) (setGeneratedVideo None (setError ""
                     (setProgress (JInt 0) (setIsGenerating true q)))),
                   rq ++ [PostGenerateVideo (videoRequest_of (formData q))
                            (JSON_stringify _ (videoRequest_of (formData q)))])
      else None
  | Core ClearDebug => if mounted q then Some (rs, q, rq) else None
  | Core (Submitted i o) =>
      match rs !! i with
      | Some {| r_formData := f; r_isGenerating := g; r_page := p;
                r_phase := Submitting |} =>
          Some (<[i := mkRun f g p
                        match submission JSON_stringify o with
                        | Normal job => Polling (new_loop i job)
                        | Throw _ => SubmitFailed
                        end]> rs,
                match submission JSON_stringify o with
                | Normal job => page_setJobId p job q
                | Throw m =>
                    setIsGenerating false
                      (setError
                         (js_or m "Failed to generate video. Please try again.")
                         q)
                end,
                rq)
      | _ => None
      end
  | Core (IntervalStarts i) =>
      match rs !! i with
      | Some {| r_formData := f; r_isGenerating := g; r_page := p;
                r_phase := Polling l |} =>
          if ticking l then
            Some (<[i := mkRun f g p (Polling (ticked l))]> rs, q,
                  rq ++ [GetVideoStatus (currentJobId l)])
          else None
      | _ => None
      end
  | Core (StatusAnswered i k o _) =>
      match rs !! i with
      | Some {| r_formData := f; r_isGenerating := g; r_page := p;
                r_phase := Polling l |} =>
          if bool_decide (k ∈ inFlight l) then
            Some (<[i := mkRun f g p
                          (Polling (answered_loop (landed k l) (answer o)))]>
                    rs,
                  settle (answered_completion l (answer o))
                         (answered_world JSON_stringify f l (answer o) q),
                  rq ++ answered_requests l (answer o))
          else None
      | _ => None
      end
  | Core (IntervalFires i o _) =>
      match rs !! i with
      | Some {| r_formData := f; r_isGenerating := g; r_page := p;
                r_phase := Polling l |} =>
          if ticking l then
            Some (<[i := mkRun f g p (Polling (poll_loop l (answer o)))]> rs,
                  settle (poll_completion l (answer o))
                         (answered_world JSON_stringify f l (answer o) q),
                  rq ++ poll_requests l (answer o))
          else None
      | _ => None
      end
  | Core (TimeoutFires i) =>
      match rs !! i with
      | Some {| r_formData := f; r_isGenerating := g; r_page := p;
                r_phase := Polling l |} =>
          if timeoutPending l then
            Some (<[i := mkRun f g p (Polling
                     (setIntervalActive false (setTimeoutPending false l)))]> rs,
                  timeout_world g q, rq)
          else None
      | _ => None
      end
  | CreateAnother =>
      match generatedVideo q with
      | Some _ => if mounted q then Some (rs, createAnother q, rq) else None
      | None => None
      end
  | TestConnection _ => if mounted q then Some (rs, q, rq) else None
  | ListJobs _ => if mounted q then Some (rs, q, rq ++ [GetJobs]) else None
  | Leave => if mounted q then Some (rs, leave q, rq) else None
  | Enter => if mounted q then None else Some (rs, enter q, rq)
  end.

(** ** Predicates of the properties *)

(** The form that a submission carries. *)
Definition submitted_body (r : Request) : option VideoRequest :=
  match r with
  | PostGenerateVideo videoRequest _ => Some videoRequest
  | _ => None
  end.

(** Run [i] ended in the [catch] block of [realVideoGeneration]. *)
Definition submit_failed (s : State) (i : nat) : Prop :=
  ∃ f g p, runs s !! i = Some (mkRun f g p SubmitFailed).

(** The message of the exception that the interval callback throws
    when polling is exhausted. *)
Definition exhausted (cause : string) : string :=
  "Polling failed after " +:+ pretty maxConsecutiveErrors
  +:+ " consecutive errors: " +:+ cause.

(** The polls of a loop are numbered from 1 in the order of their
    ticks, there are at most [maxTicks] of them, and the queries on
    their way belong to different polls. *)
Definition loop_ok (l : Loop) : Prop :=
  NoDup (inFlight l)
  ∧ Forall (λ k, (1 ≤ k ≤ pollCount l)%nat) (inFlight l)
  ∧ (pollCount l ≤ maxTicks)%nat.

(** What every run captured: the flag of a render whose button was
    enabled, and a form with a topic. *)
Definition run_ok (r : Run) : Prop :=
  r_isGenerating r = false
  ∧ blank (topic (r_formData r)) = false
  ∧ match r_phase r with
    | Polling l => loop_ok l
    | _ => True
    end.

(** The invariant of the page. While the page says that it is
    generating it shows neither a result nor an error, and its form is
    the form that the most recent run captured; a result on display is
    that of a run whose interval was cleared; an error on display has a
    run whose submission failed; the exceptions that escaped are those
    of exhausted polling. *)
Record page_inv (JSON_stringify : ∀ A : Type, A → string)
    (a : list Run * World * list Request) : Prop := {
  inv_runs : Forall run_ok a.1.1;
  inv_busy :
    isGenerating a.1.2 = true →
    generatedVideo a.1.2 = None ∧ error a.1.2 = ""
    ∧ ∃ r, last a.1.1 = Some r ∧ r_formData r = formData a.1.2;
  inv_result : ∀ v,
    generatedVideo a.1.2 = Some v →
    ∃ i f g p l, a.1.1 !! i = Some (mkRun f g p (Polling l))
                 ∧ v = video_of JSON_stringify f l
                 ∧ intervalActive l = false;
  inv_error :
    error a.1.2 ≠ "" →
    ∃ i f g p, a.1.1 !! i = Some (mkRun f g p SubmitFailed);
  inv_unhandled :
    Forall (λ m, ∃ cause, m = exhausted cause) (unhandled a.1.2)
}.

(** The requests on record against the runs on record: one submission
    per run, with the form that the run captured, which has a topic;
    and every status query is for the job of a run. *)
Definition requests_inv (a : list Run * World * list Request) : Prop :=
  let '(rs, _, rq) := a in
  omap submitted_body rq = (λ r, videoRequest_of (r_formData r)) <$> rs
  ∧ Forall (λ r, blank (topic (r_formData r)) = false) rs
  ∧ ∀ job, GetVideoStatus job ∈ rq →
      ∃ i f g p l, rs !! i = Some (mkRun f g p (Polling l))
                   ∧ currentJobId l = job.

(** A handler that keeps property [P] of the world, whatever its local
    variables are and however it completes. *)
Definition keeps {L A} (P : World → Prop) (m : Js L A) : Prop :=
  ∀ w l, P w → P (m (w, l)).2.1.

(** The debug console holds at most 21 entries. *)
Definition log_bounded (w : World) : Prop :=
  (length (debugLogs w) ≤ 21)%nat.

(** How a run can change over time: its submission is answered, its
    polls are counted, its interval is cleared, its timeout fires.
    What its closures captured stays. *)
Definition evolves (r r' : Run) : Prop :=
  r_formData r' = r_formData r
  ∧ r_isGenerating r' = r_isGenerating r
  ∧ r_page r' = r_page r
  ∧ match r_phase r, r_phase r' with
    | Submitting, _ => True
    | SubmitFailed, SubmitFailed => True
    | Polling l, Polling l' =>
        currentJobId l' = currentJobId l
        ∧ (intervalActive l' = true → intervalActive l = true)
        ∧ (timeoutPending l' = true → timeoutPending l = true)
        ∧ (pollCount l ≤ pollCount l')%nat
    | _, _ => False
    end.









Section Outcomes.
Variable clock : nat → string.
Variable JSON_stringify : ∀ A : Type, A → string.



(** Run [i] is over in [s], and ever after, without a poll: its
    submission failed, it has no timers and it awaits no answer. *)
Definition abandoned (s : State) (i : nat) : Prop :=
  ∀ tr s', exec_page clock JSON_stringify s tr = Some s' →
    submit_failed s' i
    ∧ (∀ o, step clock JSON_stringify s' (Submitted i o) = None)
    ∧ step clock JSON_stringify s' (IntervalStarts i) = None
    ∧ (∀ k o jobs,
         step clock JSON_stringify s' (StatusAnswered i k o jobs) = None)
    ∧ (∀ o jobs, step clock JSON_stringify s' (IntervalFires i o jobs) = None)
    ∧ step clock JSON_stringify s' (TimeoutFires i) = None.

(** The answer [o] to the submission of run [i] makes the run fail in
    state [s]: in the step in which the answer is handled the page
    shows [reason] as its error and stops saying that it is
    generating; no request is issued, and the run is abandoned. *)
Definition fails_with (s : State) (i : nat) (o : Fetched Json)
    (reason : string) : Prop :=
  ∃ s', step clock JSON_stringify s (Submitted i o) = Some s'
        ∧ error (world s') = reason
        ∧ isGenerating (world s') = false
        ∧ generatedVideo (world s') = generatedVideo (world s)
        ∧ unhandled (world s') = unhandled (world s)
        ∧ requests (world s') = requests (world s)
        ∧ abandoned s' i.

End Outcomes.

(** Answers and states for the examples. *)
Definition bad_gateway : Fetched Json :=
  FetchResponse 502 "<html>Bad Gateway</html>"
    (inl "Unexpected token < in JSON at position 0").

(** The validation error of the service: its [detail] is a list. *)
Definition unprocessable : Fetched Json :=
  FetchResponse 422 ""
    (inr (JObject [("detail",
                    JArray [JObject [("msg", JString "field required")]])])).




(** The page of [ready_state] after a click on the button. *)
Definition submitting_state : State :=
  default initialState (exec noon braces ready_state [ClickGenerate]).

(** Two states that differ in their diagnostics only. *)
Definition same_page (s1 s2 : State) : Prop :=
  runs s1 = runs s2
  ∧ quiet (world s1) = quiet (world s2)
  ∧ requests (world s1) = requests (world s2).

(** Two events that differ only in what the job list and the health
    endpoint answer, which is diagnostic text. *)
Inductive same_control : PageEvent → PageEvent → Prop :=
  | same_answer i k o jobs1 jobs2 :
      same_control (Core (StatusAnswered i k o jobs1))
                   (Core (StatusAnswered i k o jobs2))
  | same_poll i o jobs1 jobs2 :
      same_control (Core (IntervalFires i o jobs1))
                   (Core (IntervalFires i o jobs2))
  | same_jobs jobs1 jobs2 : same_control (ListJobs jobs1) (ListJobs jobs2)
  | same_health o1 o2 : same_control (TestConnection o1) (TestConnection o2)
  | same_event e : same_control e e.

(** A run that has no interval and awaits no answer. *)
Definition quiescent (r : Run) : Prop :=
  match r_phase r with
  | Submitting => False
  | SubmitFailed => True
  | Polling l => intervalActive l = false ∧ inFlight l = []
  end.




(** The page of [polling_state] once the service reported the job as
    completed, and once it reported it as failed. *)
Definition completed_state : State :=
  default initialState
    (exec noon braces polling_state
       [IntervalFires 0 (snapshot "completed" None) no_jobs]).

Definition failed_state : State :=
  default initialState
    (exec noon braces polling_state
       [IntervalFires 0 (snapshot "failed" None) no_jobs]).

(** The page of [polling_state] after three status queries in a row
    got no answer, and the page of [ready_state] after the service
    declined the submission. *)
Definition exhausted_state : State :=
  default initialState
    (exec noon braces polling_state
       (polls 0 [(unreachable, no_jobs); (unreachable, no_jobs);
                 (unreachable, no_jobs)])).

Definition rejected_state : State :=
  default initialState
    (exec noon braces ready_state [ClickGenerate; Submitted 0 invalid_topic]).

(** * Properties *)

(** ** Trimming *)

Lemma trimStart_nil (s : jsstring) :
  trimStart s = [] ↔ forallb js_whitespace s = true.
Proof.
  induction s as [|c s IH]; simpl; [done|].
  destruct (js_whitespace c); simpl; [exact IH|].
  split; discriminate.
Qed.

Lemma forallb_reverse {A} (p : A → bool) (l : list A) :
  forallb p (reverse l) = forallb p l.
Proof.
  induction l as [|a l IH]; [done|].
  rewrite reverse_cons, forallb_app, IH. simpl.
  rewrite andb_true_r. apply andb_comm.
Qed.

(** What [trimStart] returns is empty or starts with a character that is
    not white space. *)
Lemma trimStart_head (s : jsstring) :
  match trimStart s with
  | [] => True
  | c :: _ => js_whitespace c = false
  end.
Proof.
  induction s as [|c s IH]; simpl; [done|].
  destruct (js_whitespace c) eqn:Hc; [exact IH|exact Hc].
Qed.

Lemma trimStart_whitespace_nil (s : jsstring) :
  forallb js_whitespace (trimStart s) = true → trimStart s = [].
Proof.
  pose proof (trimStart_head s) as H.
  destruct (trimStart s) as [|c t]; [done|].
  simpl. rewrite H. discriminate.
Qed.

Lemma blank_spec (s : jsstring) :
  blank s = true ↔ forallb js_whitespace s = true.
Proof.
  unfold blank, trim, trimEnd.
  split.
  - intros H.
    assert (Hr : reverse (trimStart (reverse (trimStart s))) = []).
    { destruct (reverse (trimStart (reverse (trimStart s)))); [done|discriminate]. }
    apply (f_equal reverse) in Hr. rewrite reverse_involutive in Hr.
    change (reverse []) with (@nil N) in Hr.
    apply trimStart_nil in Hr. rewrite forallb_reverse in Hr.
    apply trimStart_nil. apply trimStart_whitespace_nil. exact Hr.
  - intros H. apply trimStart_nil in H. rewrite H. reflexivity.
Qed.

(** ** The diagnostic log *)

Lemma slice_last_length {A} (n : nat) (a : list A) :
  length (slice_last n a) = min n (length a).
Proof. unfold slice_last. rewrite length_drop. lia. Qed.

Lemma slice_last_app {A} (n : nat) (a b : list A) :
  slice_last n a ++ b = slice_last (n + length b) (a ++ b).
Proof.
  unfold slice_last. rewrite length_app.
  replace (length a + length b - (n + length b)) with (length a - n) by lia.
  rewrite drop_app_le by lia. reflexivity.
Qed.

Lemma slice_last_slice_last_app {A} (n : nat) (a b : list A) :
  slice_last n (slice_last n a ++ b) = slice_last n (a ++ b).
Proof.
  unfold slice_last at 2. rewrite <- (take_drop (length a - n) a) at 3.
  rewrite <- app_assoc.
  set (k := drop (length a - n) a ++ b).
  assert (Hk : length k = length a - (length a - n) + length b).
  { unfold k. rewrite length_app, length_drop. lia. }
  unfold slice_last. rewrite length_app, Hk, length_take.
  destruct (decide (length a ≤ n)%nat).
  - replace (length a - n) with 0 by lia. rewrite take_0. reflexivity.
  - rewrite drop_app_ge by (rewrite length_take; lia).
    rewrite length_take. f_equal. lia.
Qed.

(** One append keeps the 20 newest earlier entries and the new one: 21. *)
Lemma pushDebugLog_slice (prev : list DebugLog) (entry : DebugLog) :
  pushDebugLog prev entry = slice_last 21 (prev ++ [entry]).
Proof. unfold pushDebugLog. rewrite slice_last_app. reflexivity. Qed.

(** After any appends the log is the 21 newest entries, in the order in
    which they were appended. *)
Lemma pushDebugLog_all (prev entries : list DebugLog) :
  entries ≠ [] →
  foldl pushDebugLog prev entries = slice_last 21 (prev ++ entries).
Proof.
  revert prev. induction entries as [|e es IH]; intros prev Hne; [done|].
  simpl. destruct es as [|e' es'].
  - simpl. apply pushDebugLog_slice.
  - rewrite IH by discriminate. rewrite pushDebugLog_slice.
    rewrite slice_last_slice_last_app.
    rewrite <- app_assoc. reflexivity.
Qed.

Lemma pushDebugLog_length (prev : list DebugLog) (entry : DebugLog) :
  length (pushDebugLog prev entry) = min 21 (S (length prev)).
Proof.
  rewrite pushDebugLog_slice, slice_last_length, length_app. simpl.
  rewrite Nat.add_1_r. reflexivity.
Qed.

Lemma log_all_stamped (clock : nat → string) (entries : list (string * Severity)) :
  ∀ w, mounted w = true →
       debugLogs (log_all clock entries w)
       = foldl pushDebugLog (debugLogs w) (stamped clock (dateReads w) entries).
Proof.
  induction entries as [|e es IH]; intros w Hm; [reflexivity|].
  unfold log_all in *. cbn [foldl]. rewrite IH.
  - cbn. unfold shown. cbn. rewrite Hm, Nat.eqb_refl. reflexivity.
  - exact Hm.
Qed.

(** What survives any series of [addDebugLog] calls: the 21 newest
    entries, oldest first. *)
Lemma log_all_newest (clock : nat → string) (entries : list (string * Severity))
    (w : World) :
  mounted w = true → entries ≠ [] →
  debugLogs (log_all clock entries w)
  = slice_last 21 (debugLogs w ++ stamped clock (dateReads w) entries).
Proof.
  intros Hm Hne. rewrite log_all_stamped by exact Hm. apply pushDebugLog_all.
  destruct entries; [done|discriminate].
Qed.


(** ** Running the handlers *)

Ltac js_unfold :=
  unfold timeoutCallback, pollVideoStatus, pollVideoStatus_request,
    pollVideoStatus_response, applyStatus, noteSlowGeneration,
    pollFailed, startVideoGeneration_response, startVideoGeneration_request,
    realVideoGeneration_begin, realVideoGeneration_resume, checkAllJobs,
    testBackendConnection, pollCallback_begin, js_field,
    try_catch, mbind, Js_bind, mret, Js_ret, react, assign, read,
    addDebugLog, fetch, clearInterval, throw.

Ltac js_simpl :=
  cbn -[pretty String.app Nat.eqb Nat.leb String.eqb logged requested
        response_ok quiet member js_is js_truthy js_toString js_template
        js_or_else type_error].

Ltac js_done := eexists; split; [reflexivity|split; reflexivity].

#[local] Arguments Nat.leb : simpl never.

Ltac js_ok :=
  eexists; split; [reflexivity|];
  split; [reflexivity|first [reflexivity|symmetry; apply app_nil_r]].

Section Handlers2.
Variable clock : nat → string.
Variable JSON_stringify : ∀ A : Type, A → string.
Variable page : nat.

Lemma pollVideoStatus_request_run {L} j (w : World) (l : L) :
  ∃ w',
    pollVideoStatus_request clock JSON_stringify page j (w, l)
    = (Normal (), (w', l))
    ∧ quiet w' = quiet w
    ∧ requests w' = requests w ++ [GetVideoStatus j].
Proof. js_unfold. js_simpl. js_ok. Qed.

Lemma pollVideoStatus_response_run {L} j o (w : World) (l : L) :
  ∃ w',
    pollVideoStatus_response clock JSON_stringify page j o (w, l)
    = (match answer o with
       | Failure m => Throw m
       | Snapshot st => Normal st
       end, (w', l))
    ∧ quiet w' = quiet w
    ∧ requests w' = requests w.
Proof.
  destruct o as [m|code text [m|st]]; unfold answer; js_unfold;
    try destruct (response_ok code); js_simpl; js_ok.
Qed.

Lemma applyStatus_run f st w l :
  ∃ w',
    applyStatus clock JSON_stringify page f st (w, l)
    = (match verdict st with
       | Unreadable => Throw (type_error "progress")
       | Failed => Throw (js_or_else JSON_stringify (js_get "error" st)
                            "Video generation failed")
       | Completed | Running => Normal ()
       end,
       (w',
        match verdict st with
        | Completed | Failed =>
            setIntervalActive false (setConsecutiveErrors 0 l)
        | Unreadable | Running => setConsecutiveErrors 0 l
        end))
    ∧ quiet w' = answered_world JSON_stringify f l (Snapshot st) (quiet w)
    ∧ requests w' = requests w.
Proof.
  unfold answered_world, projected, verdict; js_unfold.
  destruct st as [|b|x|s|items|fields]; js_simpl; try js_ok.
  destruct (member "progress" fields) as [p|],
    (member "current_step" fields) as [step|];
    try destruct (js_truthy (Some step));
    destruct (js_is (member "status" fields) "completed"),
      (js_is (member "status" fields) "failed").
  all: js_simpl; js_ok.
Qed.

Lemma checkAllJobs_run {L} jobs (w : World) (l : L) :
  ∃ w', checkAllJobs clock page jobs (w, l) = (Normal (), (w', l))
        ∧ quiet w' = quiet w
        ∧ requests w' = requests w ++ [GetJobs].
Proof.
  destruct jobs as [m|code text [m|data]]; js_unfold;
    try destruct (response_ok code); js_simpl; js_ok.
Qed.

Lemma testBackendConnection_run {L} o (w : World) (l : L) :
  ∃ w', testBackendConnection clock page o (w, l) = (Normal (), (w', l))
        ∧ quiet w' = quiet w ∧ requests w' = requests w.
Proof.
  destruct o as [m|code text [m|data]]; js_unfold; js_simpl; js_ok.
Qed.

Lemma noteSlowGeneration_run jobs w l :
  ∃ w', noteSlowGeneration clock page jobs (w, l) = (Normal (), (w', l))
        ∧ quiet w' = quiet w
        ∧ requests w'
          = requests w ++ (if (pollCount l =? 40)%nat then [GetJobs] else []).
Proof.
  unfold noteSlowGeneration, mbind, Js_bind, read, addDebugLog, react.
  js_simpl.
  destruct (Nat.eqb_spec (pollCount l) 10) as [E|E].
  - rewrite E. simpl. js_ok.
  - destruct (pollCount l =? 40)%nat; [|js_ok].
    destruct (checkAllJobs_run jobs (logged clock page "⏰ Generation taking much longer than expected (2min), checking all jobs..." warning w) l)
      as (w' & E' & Hq & Hr).
    rewrite E'. eexists; split; [reflexivity|].
    rewrite Hq, Hr. split; reflexivity.
Qed.

Lemma pollFailed_run m w l :
  ∃ w', pollFailed clock page m (w, l) = (rethrown l m, (w', caught l))
        ∧ quiet w' = quiet w ∧ requests w' = requests w.
Proof.
  unfold rethrown, caught; js_unfold. js_simpl.
  destruct (maxConsecutiveErrors <=? S (consecutiveErrors l))%nat;
    js_simpl; js_ok.
Qed.

Lemma pollCallback_begin_run w l :
  ∃ w',
    pollCallback_begin clock JSON_stringify page (w, l)
    = (Normal (), (w', setPollCount (S (pollCount l)) l))
    ∧ quiet w' = quiet w
    ∧ requests w' = requests w ++ [GetVideoStatus (currentJobId l)].
Proof. js_unfold. js_simpl. js_ok. Qed.

Lemma pollCallback_resume_run f o jobs w l :
  ∃ w',
    pollCallback_resume clock JSON_stringify page f o jobs (w, l)
    = (answered_completion l (answer o), (w', answered_loop l (answer o)))
    ∧ quiet w' = answered_world JSON_stringify f l (answer o) (quiet w)
    ∧ requests w' = requests w ++ answered_requests l (answer o).
Proof.
  unfold pollCallback_resume, try_catch, mbind, Js_bind, read.
  cbn -[pollVideoStatus_response applyStatus noteSlowGeneration pollFailed
        pretty String.app logged quiet].
  destruct (pollVideoStatus_response_run (currentJobId l) o w l)
    as (w2 & -> & Q2 & R2).
  unfold answered_completion, answered_loop, answered_requests.
  destruct (answer o) as [m|st].
  - destruct (pollFailed_run m w2 l) as (w3 & -> & Q3 & R3).
    exists w3. split; [reflexivity|].
    split; [rewrite Q3, Q2; reflexivity|].
    rewrite R3, R2, app_nil_r. reflexivity.
  - destruct (applyStatus_run f st w2 l) as (w3 & -> & Q3 & R3).
    destruct (verdict st) eqn:V.
    + destruct (pollFailed_run (type_error "progress") w3
                  (setConsecutiveErrors 0 l)) as (w4 & -> & Q4 & R4).
      exists w4. split; [reflexivity|].
      split; [rewrite Q4, Q3, Q2; reflexivity|].
      rewrite R4, R3, R2, app_nil_r. reflexivity.
    + destruct (noteSlowGeneration_run jobs w3
                  (setIntervalActive false (setConsecutiveErrors 0 l)))
        as (w4 & -> & Q4 & R4).
      exists w4. split; [reflexivity|].
      split; [rewrite Q4, Q3, Q2; reflexivity|].
      rewrite R4, R3, R2. reflexivity.
    + destruct (pollFailed_run
                  (js_or_else JSON_stringify (js_get "error" st)
                     "Video generation failed") w3
                  (setIntervalActive false (setConsecutiveErrors 0 l)))
        as (w4 & -> & Q4 & R4).
      exists w4. split; [reflexivity|].
      split; [rewrite Q4, Q3, Q2; reflexivity|].
      rewrite R4, R3, R2, app_nil_r. reflexivity.
    + destruct (noteSlowGeneration_run jobs w3 (setConsecutiveErrors 0 l))
        as (w4 & -> & Q4 & R4).
      exists w4. split; [reflexivity|].
      split; [rewrite Q4, Q3, Q2; reflexivity|].
      rewrite R4, R3, R2. reflexivity.
Qed.

(** The callback is its first half followed by its second half: the
    [await] of the status query is where it is cut. *)
Lemma pollCallback_split f o jobs w l :
  pollCallback clock JSON_stringify page f o jobs (w, l)
  = (pollCallback_begin clock JSON_stringify page;;
     pollCallback_resume clock JSON_stringify page f o jobs) (w, l).
Proof. reflexivity. Qed.

Lemma pollCallback_run f o jobs w l :
  ∃ w',
    pollCallback clock JSON_stringify page f o jobs (w, l)
    = (poll_completion l (answer o), (w', poll_loop l (answer o)))
    ∧ quiet w' = answered_world JSON_stringify f l (answer o) (quiet w)
    ∧ requests w' = requests w ++ poll_requests l (answer o).
Proof.
  rewrite pollCallback_split. unfold mbind, Js_bind.
  destruct (pollCallback_begin_run w l) as (w1 & -> & Q1 & R1).
  destruct (pollCallback_resume_run f o jobs w1 (setPollCount (S (pollCount l)) l))
    as (w2 & -> & Q2 & R2).
  exists w2. split; [reflexivity|]. split; [rewrite Q2, Q1; reflexivity|].
  rewrite R2, R1, <- app_assoc. reflexivity.
Qed.

End Handlers2.

Lemma handle_truthy_true (h : positive) : handle_truthy h = true.
Proof. reflexivity. Qed.

Section Steps.
Variable clock : nat → string.
Variable JSON_stringify : ∀ A : Type, A → string.

Lemma timeoutCallback_run p g w l :
  ∃ w',
    timeoutCallback clock p g (w, l) = (Normal (), (w', setIntervalActive false l))
    ∧ quiet w' = timeout_world g (quiet w)
    ∧ requests w' = requests w.
Proof.
  unfold timeout_world; js_unfold. js_simpl.
  destruct g; js_simpl; js_ok.
Qed.

Lemma debugLogs_logged p m t w :
  debugLogs (logged clock p m t w)
  = if shown p w
    then pushDebugLog (debugLogs w) (mkDebugLog (clock (dateReads w)) m t)
    else debugLogs w.
Proof. reflexivity. Qed.

(** The timeout callback of a closure that captured [false] writes
    one entry to the log. *)
Lemma timeoutCallback_log p w l :
  debugLogs (timeoutCallback clock p false (w, l)).2.1
  = debugLogs (logged clock p "⏰ 15 minute timeout reached" warning w).
Proof. reflexivity. Qed.

Lemma realVideoGeneration_resume_run p h o w :
  ∃ w',
    realVideoGeneration_resume clock JSON_stringify p h o (w, ())
    = (Normal match submission JSON_stringify o with
              | Normal job =>
                  Some {| currentJobId := job; pollInterval := h;
                          pollCount := 0; consecutiveErrors := 0;
                          intervalActive := true; timeoutPending := true;
                          inFlight := [] |}
              | Throw _ => None
              end, (w', ()))
    ∧ quiet w'
      = match submission JSON_stringify o with
        | Normal job => page_setJobId p job (quiet w)
        | Throw m =>
            setIsGenerating false
              (setError (js_or m "Failed to generate video. Please try again.")
                        (quiet w))
        end
    ∧ requests w' = requests w.
Proof.
  unfold submission, realVideoGeneration_resume; js_unfold.
  destruct o as [m|code text [m|body]]; try destruct (response_ok code);
    try destruct body; js_simpl; js_ok.
Qed.

Lemma realVideoGeneration_run s :
  mounted (world s) = true →
  runs (realVideoGeneration clock JSON_stringify s)
  = runs s ++ [mkRun (formData (world s)) (isGenerating (world s))
                     (instance (world s)) Submitting]
  ∧ quiet (world (realVideoGeneration clock JSON_stringify s))
    = setJobId (Some JNull) (setGeneratedVideo None (setError ""
        (setProgress (JInt 0) (setIsGenerating true (quiet (world s))))))
  ∧ requests (world (realVideoGeneration clock JSON_stringify s))
    = requests (world s)
      ++ [PostGenerateVideo (videoRequest_of (formData (world s)))
            (JSON_stringify _ (videoRequest_of (formData (world s))))].
Proof.
  intros Hm. split; [reflexivity|].
  unfold realVideoGeneration; js_unfold. js_simpl.
  unfold page_setJobId, shown. js_simpl. rewrite Hm, Nat.eqb_refl.
  split; reflexivity.
Qed.

(** A click on the button either does nothing or starts one run. *)
Lemma click_cases s :
  (submit_disabled (world s) = true ∧ click clock JSON_stringify s = s)
  ∨ (submit_disabled (world s) = false
     ∧ isGenerating (world s) = false
     ∧ blank (topic (formData (world s))) = false
     ∧ backendConnected (world s) = true
     ∧ click clock JSON_stringify s = realVideoGeneration clock JSON_stringify s).
Proof.
  unfold click. destruct (submit_disabled (world s)) eqn:Hd; [left; auto|].
  right. unfold submit_disabled in Hd.
  apply orb_false_elim in Hd as (Hd & Hc).
  apply orb_false_elim in Hd as (Hg & Hb).
  apply negb_false_iff in Hc.
  split; [reflexivity|]. split; [exact Hg|]. split; [exact Hb|].
  split; [exact Hc|].
  unfold handleSubmit. rewrite Hb, Hc. reflexivity.
Qed.

(** Every event of the page does to the runs, to the world without its
    diagnostics and to the requests what [control_step] says. *)
Lemma step_page_control s e :
  control_of <$> step_page clock JSON_stringify s e
  = control_step JSON_stringify (control_of s) e.
Proof.
  unfold control_of.
  destruct e as [[edit|ok| | |i o|i|i k o jobs|i o jobs|i]| |o|jobs| |];
    cbn [step_page control_step].
  - simpl. destruct (mounted (world s) && negb (isGenerating (world s)));
      reflexivity.
  - reflexivity.
  - cbn [step].
    change (mounted (quiet (world s))) with (mounted (world s)).
    change (submit_disabled (quiet (world s)))
      with (submit_disabled (world s)).
    destruct (mounted (world s)) eqn:Hm; [|reflexivity].
    destruct (click_cases s) as [[-> ->]|(-> & _ & _ & _ & ->)];
      [reflexivity|].
    cbn [fmap option_fmap option_map].
    destruct (realVideoGeneration_run s Hm) as (-> & -> & ->).
    reflexivity.
  - simpl. destruct (mounted (world s)); reflexivity.
  - cbn [step].
    destruct (runs s !! i) as [[f g p [| |l]]|] eqn:Hr; try reflexivity.
    destruct (realVideoGeneration_resume_run p (Pos.of_succ_nat i) o (world s))
      as (w' & -> & Q & R).
    cbn [fmap option_fmap option_map world runs].
    rewrite Q, R. unfold new_loop.
    destruct (submission JSON_stringify o); reflexivity.
  - cbn [step].
    destruct (runs s !! i) as [[f g p [| |l]]|] eqn:Hr; try reflexivity.
    destruct (ticking l); [|reflexivity].
    destruct (pollCallback_begin_run clock JSON_stringify p (world s) l)
      as (w' & -> & Q & R).
    cbn [fmap option_fmap option_map world runs settle].
    rewrite Q, R. reflexivity.
  - cbn [step].
    destruct (runs s !! i) as [[f g p [| |l]]|] eqn:Hr; try reflexivity.
    destruct (bool_decide (k ∈ inFlight l)); [|reflexivity].
    destruct (pollCallback_resume_run clock JSON_stringify p f o jobs (world s)
                (landed k l)) as (w' & E & Q & R).
    unfold landed in E at 1. rewrite E.
    cbn [fmap option_fmap option_map world runs].
    destruct (answered_completion (landed k l) (answer o)) eqn:C;
      change (answered_completion (landed k l) (answer o))
        with (answered_completion l (answer o)) in C; rewrite C;
      cbn [settle]; rewrite ?Q, ?R; try reflexivity.
    change (requests (setUnhandled (unhandled w' ++ [message]) w'))
      with (requests w').
    change (quiet (setUnhandled (unhandled w' ++ [message]) w'))
      with (setUnhandled (unhandled (quiet w') ++ [message]) (quiet w')).
    rewrite Q, R. reflexivity.
  - cbn [step].
    destruct (runs s !! i) as [[f g p [| |l]]|] eqn:Hr; try reflexivity.
    destruct (ticking l); [|reflexivity].
    destruct (pollCallback_run clock JSON_stringify p f o jobs (world s) l)
      as (w' & -> & Q & R).
    cbn [fmap option_fmap option_map world runs].
    destruct (poll_completion l (answer o)) eqn:C; cbn [settle];
      rewrite ?Q, ?R; try reflexivity.
    change (requests (setUnhandled (unhandled w' ++ [message]) w'))
      with (requests w').
    change (quiet (setUnhandled (unhandled w' ++ [message]) w'))
      with (setUnhandled (unhandled (quiet w') ++ [message]) (quiet w')).
    rewrite Q, R. reflexivity.
  - cbn [step].
    destruct (runs s !! i) as [[f g p [| |l]]|] eqn:Hr; try reflexivity.
    destruct (timeoutPending l); [|reflexivity].
    destruct (timeoutCallback_run p g (world s) (setTimeoutPending false l))
      as (w' & -> & Q & R).
    cbn [fmap option_fmap option_map world runs settle].
    rewrite Q, R. reflexivity.
  - change (generatedVideo (quiet (world s)))
      with (generatedVideo (world s)).
    change (mounted (quiet (world s))) with (mounted (world s)).
    destruct (generatedVideo (world s)); [|reflexivity].
    destruct (mounted (world s)); reflexivity.
  - change (mounted (quiet (world s))) with (mounted (world s)).
    destruct (mounted (world s)); [|reflexivity].
    destruct (testBackendConnection_run clock (instance (world s)) o
                (world s) ()) as (w' & -> & Q & R).
    cbn [fmap option_fmap option_map world runs settle].
    rewrite Q, R. reflexivity.
  - change (mounted (quiet (world s))) with (mounted (world s)).
    destruct (mounted (world s)); [|reflexivity].
    destruct (checkAllJobs_run clock (instance (world s)) jobs (world s) ())
      as (w' & -> & Q & R).
    cbn [fmap option_fmap option_map world runs settle].
    rewrite Q, R. reflexivity.
  - change (mounted (quiet (world s))) with (mounted (world s)).
    destruct (mounted (world s)); reflexivity.
  - change (mounted (quiet (world s))) with (mounted (world s)).
    destruct (mounted (world s)); reflexivity.
Qed.

Lemma step_page_cases s e s' :
  step_page clock JSON_stringify s e = Some s' →
  control_step JSON_stringify (runs s, quiet (world s), requests (world s)) e
  = Some (runs s', quiet (world s'), requests (world s')).
Proof.
  intros H. pose proof (step_page_control s e) as Hc.
  rewrite H in Hc. symmetry. exact Hc.
Qed.

End Steps.

(** ** From the summaries back to the page *)

Lemma control_some (s : State) (a : list Run * World * list Request) :
  Some (control_of s) = Some a →
  runs s = a.1.1 ∧ quiet (world s) = a.1.2 ∧ requests (world s) = a.2.
Proof. intros [= <-]. repeat split. Qed.

Section Control.
Variable clock : nat → string.
Variable JSON_stringify : ∀ A : Type, A → string.

(** An event that the summary allows happens on the page, with the
    outcome that the summary gives. *)
Lemma step_page_exists s e a :
  control_step JSON_stringify (control_of s) e = Some a →
  ∃ s', step_page clock JSON_stringify s e = Some s'
        ∧ runs s' = a.1.1 ∧ quiet (world s') = a.1.2
        ∧ requests (world s') = a.2.
Proof.
  intros H. rewrite <- step_page_control with (clock := clock) in H.
  destruct (step_page clock JSON_stringify s e) as [s'|]; [|discriminate].
  exists s'. split; [reflexivity|]. apply control_some. exact H.
Qed.

Lemma step_page_refused s e :
  control_step JSON_stringify (control_of s) e = None →
  step_page clock JSON_stringify s e = None.
Proof.
  intros H. rewrite <- step_page_control with (clock := clock) in H.
  destruct (step_page clock JSON_stringify s e); [discriminate|reflexivity].
Qed.

(** What the summary keeps, event by event, holds in every state that
    the page reaches. *)
Lemma control_exec (K : list Run * World * list Request → Prop) :
  (∀ a e a', K a → control_step JSON_stringify a e = Some a' → K a') →
  ∀ tr s s', K (control_of s) →
    exec_page clock JSON_stringify s tr = Some s' → K (control_of s').
Proof.
  intros Hstep. induction tr as [|e tr IH]; intros s s' Hs H.
  - injection H as <-. exact Hs.
  - cbn [exec_page] in H.
    destruct (step_page clock JSON_stringify s e) as [s1|] eqn:E;
      [|discriminate].
    apply (IH s1 s'); [|exact H].
    apply (Hstep (control_of s) e); [exact Hs|].
    apply step_page_cases in E. exact E.
Qed.

Lemma control_invariant (K : list Run * World * list Request → Prop) :
  K (control_of initialState) →
  (∀ a e a', K a → control_step JSON_stringify a e = Some a' → K a') →
  ∀ s, reachable_page clock JSON_stringify s → K (control_of s).
Proof.
  intros H0 Hstep s (tr & H).
  exact (control_exec K Hstep tr initialState s H0 H).
Qed.

Lemma exec_page_app tr1 : ∀ tr2 s,
  exec_page clock JSON_stringify s (tr1 ++ tr2)
  = exec_page clock JSON_stringify s tr1
    ≫= λ s1, exec_page clock JSON_stringify s1 tr2.
Proof.
  induction tr1 as [|e tr1 IH]; intros tr2 s; [reflexivity|].
  cbn [app exec_page].
  destruct (step_page clock JSON_stringify s e); [apply IH|reflexivity].
Qed.

Lemma reachable_page_exec s tr s' :
  reachable_page clock JSON_stringify s →
  exec_page clock JSON_stringify s tr = Some s' →
  reachable_page clock JSON_stringify s'.
Proof.
  intros (tr0 & H0) H. exists (tr0 ++ tr).
  rewrite exec_page_app, H0. exact H.
Qed.

Lemma exec_is_exec_page tr : ∀ s,
  exec_page clock JSON_stringify s (Core <$> tr)
  = exec clock JSON_stringify s tr.
Proof.
  induction tr as [|e tr IH]; intros s; [reflexivity|].
  cbn [fmap list_fmap exec_page exec step_page].
  destruct (step clock JSON_stringify s e); [apply IH|reflexivity].
Qed.

(** The states of the controller are states of the whole page. *)
Lemma reachable_is_reachable_page s :
  reachable clock JSON_stringify s → reachable_page clock JSON_stringify s.
Proof.
  intros (tr & H). exists (Core <$> tr). rewrite exec_is_exec_page. exact H.
Qed.

End Control.

(** The summary of an event, case by case: the event and the branches
    that allow it. *)
Ltac control_cases H :=
  lazymatch type of H with
  | control_step _ (?rs, ?q, ?rq) ?e = Some _ =>
      destruct e as [[edit|ok| | |i o|i|i k o jobs|i o jobs|i]| |o|jobs| |];
      cbn [control_step] in H;
      repeat lazymatch type of H with
      | match ?x !! ?i with _ => _ end = Some _ =>
          let Hr := fresh "Hr" in
          destruct (x !! i) as [[f g p [| |l]]|] eqn:Hr; try discriminate H
      | match generatedVideo ?x with _ => _ end = Some _ =>
          let Hv := fresh "Hv" in
          destruct (generatedVideo x) eqn:Hv; try discriminate H
      | (if ?b then _ else _) = Some _ =>
          let Hb := fresh "Hb" in
          destruct b eqn:Hb; try discriminate H
      end;
      injection H as <-
  end.

(** ** What the callbacks leave alone *)

Lemma caught_fields l :
  currentJobId (caught l) = currentJobId l
  ∧ pollCount (caught l) = pollCount l
  ∧ inFlight (caught l) = inFlight l
  ∧ timeoutPending (caught l) = timeoutPending l
  ∧ consecutiveErrors (caught l) = S (consecutiveErrors l)
  ∧ intervalActive (caught l)
    = intervalActive l && (S (consecutiveErrors l) <? maxConsecutiveErrors)%nat.
Proof.
  unfold caught.
  destruct (Nat.leb_spec maxConsecutiveErrors (S (consecutiveErrors l)))
    as [H|H]; cbn; repeat split.
  - destruct (Nat.ltb_spec (S (consecutiveErrors l)) maxConsecutiveErrors);
      [lia|]. symmetry. apply andb_false_r.
  - destruct (Nat.ltb_spec (S (consecutiveErrors l)) maxConsecutiveErrors);
      [|lia]. symmetry. apply andb_true_r.
Qed.

Lemma answered_loop_fields l a :
  currentJobId (answered_loop l a) = currentJobId l
  ∧ pollCount (answered_loop l a) = pollCount l
  ∧ inFlight (answered_loop l a) = inFlight l
  ∧ timeoutPending (answered_loop l a) = timeoutPending l
  ∧ (intervalActive (answered_loop l a) = true → intervalActive l = true).
Proof.
  unfold answered_loop. destruct a as [m|st].
  - destruct (caught_fields l) as (-> & -> & -> & -> & _ & ->).
    repeat split. intros H. apply andb_prop in H. tauto.
  - destruct (verdict st).
    + destruct (caught_fields (setConsecutiveErrors 0 l))
        as (-> & -> & -> & -> & _ & ->).
      repeat split. intros H. apply andb_prop in H. tauto.
    + repeat split. discriminate.
    + destruct (caught_fields (setIntervalActive false (setConsecutiveErrors 0 l)))
        as (-> & -> & -> & -> & _ & ->).
      repeat split. discriminate.
    + repeat split. auto.
Qed.

Lemma projected_fields st w :
  formData (projected st w) = formData w
  ∧ backendConnected (projected st w) = backendConnected w
  ∧ isGenerating (projected st w) = isGenerating w
  ∧ generatedVideo (projected st w) = generatedVideo w
  ∧ error (projected st w) = error w
  ∧ jobId (projected st w) = jobId w
  ∧ unhandled (projected st w) = unhandled w
  ∧ mounted (projected st w) = mounted w
  ∧ instance (projected st w) = instance w.
Proof.
  unfold projected.
  destruct (js_get "progress" st), (js_get "current_step" st) as [c|];
    try destruct (js_truthy (Some c)); repeat split.
Qed.

Lemma settle_fields c w :
  formData (settle c w) = formData w
  ∧ backendConnected (settle c w) = backendConnected w
  ∧ isGenerating (settle c w) = isGenerating w
  ∧ generatedVideo (settle c w) = generatedVideo w
  ∧ error (settle c w) = error w
  ∧ jobId (settle c w) = jobId w
  ∧ progress (settle c w) = progress w
  ∧ mounted (settle c w) = mounted w
  ∧ instance (settle c w) = instance w.
Proof. destruct c; repeat split. Qed.

(** The interval callback either records a result, for a snapshot that
    reports completion, or leaves the flag, the result and the error
    alone. *)
Lemma answered_world_fields JSON_stringify f l a w :
  formData (answered_world JSON_stringify f l a w) = formData w
  ∧ backendConnected (answered_world JSON_stringify f l a w)
    = backendConnected w
  ∧ error (answered_world JSON_stringify f l a w) = error w
  ∧ jobId (answered_world JSON_stringify f l a w) = jobId w
  ∧ unhandled (answered_world JSON_stringify f l a w) = unhandled w
  ∧ mounted (answered_world JSON_stringify f l a w) = mounted w
  ∧ instance (answered_world JSON_stringify f l a w) = instance w
  ∧ ((∃ st, a = Snapshot st ∧ verdict st = Completed
        ∧ isGenerating (answered_world JSON_stringify f l a w) = false
        ∧ generatedVideo (answered_world JSON_stringify f l a w)
          = Some (video_of JSON_stringify f l)
        ∧ progress (answered_world JSON_stringify f l a w) = JInt 100)
     ∨ ((∀ st, a = Snapshot st → verdict st ≠ Completed)
        ∧ isGenerating (answered_world JSON_stringify f l a w)
          = isGenerating w
        ∧ generatedVideo (answered_world JSON_stringify f l a w)
          = generatedVideo w)).
Proof.
  unfold answered_world. destruct a as [m|st].
  - repeat split. right. repeat split. discriminate.
  - destruct (projected_fields st w)
      as (Hf & Hb & Hg & Hv & He & Hj & Hu & Hm & Hi).
    destruct (verdict st) eqn:V; cbn; rewrite ?Hf, ?Hb, ?He, ?Hj, ?Hu, ?Hm, ?Hi;
      repeat split;
      first [ left; exists st; repeat split; exact V
            | right; repeat split;
              [intros st' [= <-]; congruence|assumption..] ].
Qed.

(** ** The invariant of the page *)

Lemma lookup_insert_run (rs : list Run) i r' j rj :
  <[i := r']> rs !! j = Some rj →
  (i = j ∧ rj = r') ∨ (i ≠ j ∧ rs !! j = Some rj).
Proof.
  intros H. destruct (decide (i = j)) as [->|Hne].
  - left. split; [reflexivity|].
    assert (j < length rs)%nat as Hlt.
    { apply lookup_lt_Some in H. rewrite length_insert in H. exact H. }
    rewrite list_lookup_insert_eq in H by exact Hlt. congruence.
  - right. rewrite list_lookup_insert_ne in H by exact Hne. auto.
Qed.

Lemma lookup_insert_other (rs : list Run) i r r' j rj :
  rs !! i = Some r → rs !! j = Some rj → r_phase r ≠ r_phase rj →
  <[i := r']> rs !! j = Some rj.
Proof.
  intros Hi Hj Hne. rewrite list_lookup_insert_ne; [exact Hj|].
  intros ->. congruence.
Qed.

Lemma last_insert_run (rs : list Run) i f g p ph ph' F :
  rs !! i = Some (mkRun f g p ph) →
  (∃ r, last rs = Some r ∧ r_formData r = F) →
  ∃ r, last (<[i := mkRun f g p ph']> rs) = Some r ∧ r_formData r = F.
Proof.
  intros Hi (r & Hl & HF). rewrite last_lookup in Hl.
  rewrite last_lookup, length_insert.
  pose proof (lookup_lt_Some _ _ _ Hi) as Hlt.
  destruct (decide (i = pred (length rs))) as [E|E].
  - exists (mkRun f g p ph'). rewrite <- E.
    rewrite list_lookup_insert_eq by exact Hlt. split; [reflexivity|].
    rewrite <- E in Hl. rewrite Hi in Hl. injection Hl as <-. exact HF.
  - exists r. rewrite list_lookup_insert_ne by exact E. auto.
Qed.

Lemma video_of_job JSON_stringify f l l' :
  currentJobId l' = currentJobId l →
  video_of JSON_stringify f l' = video_of JSON_stringify f l.
Proof. unfold video_of. intros ->. reflexivity. Qed.

Section Invariant.
Variable JSON_stringify : ∀ A : Type, A → string.

Lemma page_inv_initial : page_inv JSON_stringify (control_of initialState).
Proof.
  split; cbn; try discriminate; try constructor. intros H. contradiction.
Qed.

(** An event that leaves the runs alone. *)
Lemma page_inv_bystander rs q rq q' rq' :
  page_inv JSON_stringify (rs, q, rq) →
  (isGenerating q' = true →
   isGenerating q = true ∧ formData q' = formData q) →
  (generatedVideo q' = generatedVideo q ∨ generatedVideo q' = None) →
  (error q' = error q ∨ error q' = "") →
  unhandled q' = unhandled q →
  page_inv JSON_stringify (rs, q', rq').
Proof.
  intros [I1 I2 I3 I4 I5] Hg Hv He Hu. cbn in *. split; cbn.
  - exact I1.
  - intros H. destruct (Hg H) as (Hg1 & Hf).
    destruct (I2 Hg1) as (Iv & Ie & Il). rewrite Hf.
    split; [destruct Hv; congruence|].
    split; [destruct He; congruence|exact Il].
  - intros v H. apply I3. destruct Hv; congruence.
  - intros H. apply I4. destruct He; congruence.
  - rewrite Hu. exact I5.
Qed.

(** An event of run [i]. *)
Lemma page_inv_update rs q rq i f g p ph ph' q' rq' :
  page_inv JSON_stringify (rs, q, rq) →
  rs !! i = Some (mkRun f g p ph) →
  ph ≠ SubmitFailed →
  match ph' with
  | Polling l' =>
      loop_ok l'
      ∧ ∀ l, ph = Polling l →
          currentJobId l' = currentJobId l
          ∧ (intervalActive l = false → intervalActive l' = false)
  | Submitting => False
  | SubmitFailed => ph = Submitting
  end →
  (isGenerating q' = true →
   isGenerating q = true ∧ formData q' = formData q) →
  (∀ v, generatedVideo q' = Some v →
     generatedVideo q = Some v
     ∨ (isGenerating q' = false
        ∧ ∃ l', ph' = Polling l' ∧ v = video_of JSON_stringify f l'
                ∧ intervalActive l' = false)) →
  (error q' = "" ∨ error q' = error q
   ∨ (isGenerating q' = false ∧ ph' = SubmitFailed)) →
  (∀ m, m ∈ unhandled q' →
     m ∈ unhandled q ∨ ∃ cause, m = exhausted cause) →
  page_inv JSON_stringify (<[i := mkRun f g p ph']> rs, q', rq').
Proof.
  intros [I1 I2 I3 I4 I5] Hi Hph Hph' Hg Hv He Hu. cbn in *.
  pose proof (lookup_lt_Some _ _ _ Hi) as Hlt.
  assert (Hok : run_ok (mkRun f g p ph)) by (eapply Forall_lookup_1; eauto).
  split; cbn.
  - apply Forall_insert; [exact I1|].
    destruct Hok as (Ha & Hb & _). split; [exact Ha|]. split; [exact Hb|].
    cbn. destruct ph'; tauto.
  - intros H. destruct (Hg H) as (Hg1 & Hf).
    destruct (I2 Hg1) as (Iv & Ie & Il). rewrite Hf.
    split; [|split].
    + destruct (generatedVideo q') as [v|] eqn:E; [|reflexivity].
      destruct (Hv v eq_refl) as [Hold|(Hoff & _)]; congruence.
    + destruct He as [He|[He|(Hoff & _)]]; congruence.
    + eapply last_insert_run; eauto.
  - intros v H. destruct (Hv v H) as [Hold|(_ & l' & -> & -> & Hl')].
    + destruct (I3 v Hold) as (j & fj & gj & pj & lj & Hj & -> & Hoff).
      destruct (decide (i = j)) as [->|Hne].
      * rewrite Hi in Hj. injection Hj as -> -> -> ->.
        destruct ph' as [| |l']; [contradiction| |].
        -- discriminate Hph'.
        -- destruct Hph' as (_ & Hl). destruct (Hl lj eq_refl) as (Hjob & Hact).
           exists j, fj, gj, pj, l'.
           rewrite list_lookup_insert_eq by exact Hlt.
           split; [reflexivity|]. split; [|auto].
           symmetry. apply video_of_job. exact Hjob.
      * exists j, fj, gj, pj, lj.
        rewrite list_lookup_insert_ne by exact Hne. auto.
    + exists i, f, g, p, l'.
      rewrite list_lookup_insert_eq by exact Hlt. auto.
  - intros H. destruct He as [He|[He|(_ & ->)]]; [contradiction| |].
    + rewrite He in H. destruct (I4 H) as (j & fj & gj & pj & Hj).
      exists j, fj, gj, pj. rewrite list_lookup_insert_ne; [exact Hj|].
      intros ->. rewrite Hi in Hj. congruence.
    + exists i, f, g, p. apply list_lookup_insert_eq. exact Hlt.
  - apply Forall_forall. intros m Hm. destruct (Hu m Hm) as [Hold|Hnew].
    + rewrite Forall_forall in I5. auto.
    + exact Hnew.
Qed.

End Invariant.

Lemma loop_ok_same l l' :
  inFlight l' = inFlight l → pollCount l' = pollCount l →
  loop_ok l → loop_ok l'.
Proof. unfold loop_ok. intros -> ->. auto. Qed.

Lemma ticking_spec l :
  ticking l = true ↔ intervalActive l = true ∧ (pollCount l < maxTicks)%nat.
Proof.
  unfold ticking. rewrite andb_true_iff, Nat.ltb_lt. reflexivity.
Qed.

Lemma loop_ok_ticked l : ticking l = true → loop_ok l → loop_ok (ticked l).
Proof.
  intros Ht (Hnd & Hall & Hmax). apply ticking_spec in Ht as (_ & Hlt).
  unfold loop_ok, ticked. cbn. split; [|split].
  - apply NoDup_app. split; [exact Hnd|]. split; [|apply NoDup_singleton].
    intros k Hk Hk'. apply list_elem_of_singleton in Hk'. subst k.
    rewrite Forall_forall in Hall. apply Hall in Hk. lia.
  - apply Forall_app. split.
    + eapply Forall_impl; [exact Hall|]. cbn. intros; lia.
    + apply Forall_singleton. lia.
  - lia.
Qed.

Lemma loop_ok_landed k l : loop_ok l → loop_ok (landed k l).
Proof.
  intros (Hnd & Hall & Hmax). unfold loop_ok, landed. cbn.
  split; [apply NoDup_filter; exact Hnd|].
  split; [|exact Hmax].
  apply Forall_forall. intros j Hj. apply list_elem_of_filter in Hj as (_ & Hj).
  rewrite Forall_forall in Hall. auto.
Qed.

Lemma loop_ok_answered l a : loop_ok l → loop_ok (answered_loop l a).
Proof.
  destruct (answered_loop_fields l a) as (_ & Hp & Hf & _).
  apply loop_ok_same; assumption.
Qed.

Lemma loop_ok_poll l a : ticking l = true → loop_ok l → loop_ok (poll_loop l a).
Proof.
  intros Ht (Hnd & Hall & Hmax). apply ticking_spec in Ht as (_ & Hlt).
  unfold poll_loop. apply loop_ok_answered. unfold loop_ok. cbn.
  split; [exact Hnd|]. split; [|lia].
  eapply Forall_impl; [exact Hall|]. cbn. intros; lia.
Qed.

Lemma rethrown_cases l m :
  rethrown l m = Normal () ∨ rethrown l m = Throw (exhausted m).
Proof.
  unfold rethrown, exhausted.
  destruct (maxConsecutiveErrors <=? S (consecutiveErrors l))%nat; auto.
Qed.

Lemma settle_unhandled c w m :
  m ∈ unhandled (settle c w) →
  m ∈ unhandled w ∨ c = Throw m.
Proof.
  destruct c as [[]|m']; cbn; [auto|].
  intros H. apply elem_of_app in H as [H|H]; [auto|].
  apply list_elem_of_singleton in H. subst. auto.
Qed.

Lemma answered_unhandled JSON_stringify f l0 l a q m :
  m ∈ unhandled (settle (answered_completion l a)
                   (answered_world JSON_stringify f l0 a q)) →
  m ∈ unhandled q ∨ ∃ cause, m = exhausted cause.
Proof.
  intros H. apply settle_unhandled in H as [H|H].
  - destruct (answered_world_fields JSON_stringify f l0 a q)
      as (_ & _ & _ & _ & Hu & _).
    rewrite Hu in H. auto.
  - right. destruct a as [m'|st]; [|discriminate].
    cbn in H. destruct (rethrown_cases l m') as [E|E]; rewrite E in H.
    + discriminate.
    + injection H as <-. eauto.
Qed.

Section InvariantStep.
Variable clock : nat → string.
Variable JSON_stringify : ∀ A : Type, A → string.

(** The step of an answer, whether it is that of a tick answered at
    once or that of a query answered later. *)
Lemma page_inv_answer rs q rq i f g p l l1 l2 a rq' :
  page_inv JSON_stringify (rs, q, rq) →
  rs !! i = Some (mkRun f g p (Polling l)) →
  currentJobId l1 = currentJobId l →
  intervalActive l1 = intervalActive l →
  loop_ok l1 →
  page_inv JSON_stringify
    (<[i := mkRun f g p (Polling (answered_loop l1 a))]> rs,
     settle (answered_completion l2 a)
       (answered_world JSON_stringify f l a q), rq').
Proof.
  intros I Hr Hjob Hact Hok.
  destruct (answered_loop_fields l1 a) as (Lj & _ & _ & _ & La).
  destruct (settle_fields (answered_completion l2 a)
              (answered_world JSON_stringify f l a q))
    as (Sf & _ & Sg & Sv & Se & _).
  destruct (answered_world_fields JSON_stringify f l a q)
    as (Wf & _ & We & _ & _ & _ & _ & W).
  eapply page_inv_update; [exact I|exact Hr|discriminate|..].
  - split; [apply loop_ok_answered; exact Hok|].
    intros l0 [= <-]. split; [congruence|].
    intros Hoff. destruct (intervalActive (answered_loop l1 a)) eqn:E;
      [|reflexivity].
    rewrite La in Hact by reflexivity. congruence.
  - rewrite Sg, Sf, Wf.
    destruct W as [(st & _ & _ & Wg & _)|(_ & Wg & _)]; rewrite Wg;
      [discriminate|auto].
  - intros v. rewrite Sv, Sg.
    destruct W as [(st & -> & V & Wg & Wv & _)|(_ & _ & Wv)]; rewrite Wv.
    + intros [= <-]. right. split; [exact Wg|].
      eexists. split; [reflexivity|]. split.
      * symmetry. apply video_of_job. congruence.
      * cbn. rewrite V. reflexivity.
    + auto.
  - rewrite Se, We. auto.
  - apply answered_unhandled.
Qed.

Lemma page_inv_step a e a' :
  page_inv JSON_stringify a →
  control_step JSON_stringify a e = Some a' →
  page_inv JSON_stringify a'.
Proof.
  destruct a as [[rs q] rq]. intros I H.
  pose proof (inv_runs _ _ I) as Iruns. cbn in Iruns.
  control_cases H.
  - (* the form is edited *)
    apply andb_prop in Hb as (_ & Hg). apply negb_true_iff in Hg.
    eapply page_inv_bystander; [exact I|cbn; congruence|cbn; auto..].
  - eapply page_inv_bystander; [exact I|cbn; auto..].
  - exact I.
  - (* a run is started *)
    unfold submit_disabled in Hb0.
    apply orb_false_elim in Hb0 as (Hb0 & Hc).
    apply orb_false_elim in Hb0 as (Hg & Hblank).
    destruct I as [I1 I2 I3 I4 I5]. cbn in *. split; cbn.
    + apply Forall_app. split; [exact I1|].
      apply Forall_singleton. split; [exact Hg|]. split; [exact Hblank|exact I].
    + intros _. split; [reflexivity|]. split; [reflexivity|].
      eexists. split; [apply last_snoc|reflexivity].
    + discriminate.
    + intros Hne. contradiction.
    + exact I5.
  - exact I.
  - (* the submission is answered *)
    destruct (submission JSON_stringify o) as [job|m].
    + eapply page_inv_update; [exact I|exact Hr|discriminate|..]; cbn; auto.
      split; [|discriminate].
      split; [apply NoDup_nil_2|]. split; [apply Forall_nil_2|cbn; lia].
    + eapply page_inv_update; [exact I|exact Hr|discriminate|..]; cbn; auto.
      discriminate.
  - (* a tick *)
    assert (loop_ok l) as Hok.
    { pose proof (Forall_lookup_1 _ _ _ _ Iruns Hr) as (_ & _ & H). exact H. }
    eapply page_inv_update; [exact I|exact Hr|discriminate|..]; cbn; auto.
    split; [apply loop_ok_ticked; assumption|].
    intros l0 [= <-]. auto.
  - (* an answer *)
    assert (loop_ok l) as Hok.
    { pose proof (Forall_lookup_1 _ _ _ _ Iruns Hr) as (_ & _ & H). exact H. }
    eapply page_inv_answer; [exact I|exact Hr|reflexivity..|].
    apply loop_ok_landed. exact Hok.
  - (* a tick answered at once *)
    assert (loop_ok l) as Hok.
    { pose proof (Forall_lookup_1 _ _ _ _ Iruns Hr) as (_ & _ & H). exact H. }
    unfold poll_loop, poll_completion.
    eapply page_inv_answer; [exact I|exact Hr|reflexivity..|].
    apply ticking_spec in Hb as (_ & Hlt).
    destruct Hok as (Hnd & Hall & Hmax). split; [exact Hnd|].
    split; [|cbn; lia].
    eapply Forall_impl; [exact Hall|]. cbn. intros; lia.
  - (* the timeout *)
    assert (g = false) as ->.
    { pose proof (Forall_lookup_1 _ _ _ _ Iruns Hr) as (H & _). exact H. }
    assert (loop_ok l) as Hok.
    { pose proof (Forall_lookup_1 _ _ _ _ Iruns Hr) as (_ & _ & H). exact H. }
    eapply page_inv_update; [exact I|exact Hr|discriminate|..]; cbn; auto.
    split; [exact Hok|]. intros l0 [= <-]. auto.
  - (* Create Another *)
    assert (isGenerating q = false) as Hg.
    { destruct (isGenerating q) eqn:E; [|reflexivity].
      destruct (inv_busy _ _ I E) as (Hnone & _). cbn in Hnone. congruence. }
    eapply page_inv_bystander; [exact I|cbn; congruence|cbn; auto..].
  - exact I.
  - eapply page_inv_bystander; [exact I|cbn; auto..].
  - eapply page_inv_bystander; [exact I|cbn; auto..].
  - eapply page_inv_bystander; [exact I|cbn; auto..].
Qed.

(** The invariant holds in every state that the page reaches. *)
Lemma page_inv_reachable s :
  reachable_page clock JSON_stringify s →
  page_inv JSON_stringify (control_of s).
Proof.
  apply control_invariant; [apply page_inv_initial|].
  intros a e a'. apply page_inv_step.
Qed.

Lemma page_inv_exec s tr s' :
  page_inv JSON_stringify (control_of s) →
  exec_page clock JSON_stringify s tr = Some s' →
  page_inv JSON_stringify (control_of s').
Proof.
  apply (control_exec clock JSON_stringify (page_inv JSON_stringify)).
  intros a e a'. apply page_inv_step.
Qed.

End InvariantStep.

(** ** The size of the debug console *)

Section Keeps.
Context {L : Type} (P : World → Prop).

Lemma keeps_ret {A} (a : A) : keeps (L := L) P (mret a).
Proof. intros w l H. exact H. Qed.

Lemma keeps_throw {A} m : keeps (L := L) (A := A) P (throw m).
Proof. intros w l H. exact H. Qed.

Lemma keeps_assign f : keeps (L := L) P (assign f).
Proof. intros w l H. exact H. Qed.

Lemma keeps_read {A} (f : L → A) : keeps P (read f).
Proof. intros w l H. exact H. Qed.

Lemma keeps_react f : (∀ w, P w → P (f w)) → keeps (L := L) P (react f).
Proof. intros Hf w l H. apply Hf. exact H. Qed.

Lemma keeps_bind {A B} (m : Js L A) (k : A → Js L B) :
  keeps P m → (∀ a, keeps P (k a)) → keeps P (m ≫= k).
Proof.
  intros Hm Hk w l H. specialize (Hm w l H).
  unfold mbind, Js_bind. destruct (m (w, l)) as [[a|e] [w' l']]; simpl in *.
  - apply Hk. exact Hm.
  - exact Hm.
Qed.

Lemma keeps_try {A} (body : Js L A) handler :
  keeps P body → (∀ e, keeps P (handler e)) → keeps P (try_catch body handler).
Proof.
  intros Hm Hk w l H. specialize (Hm w l H).
  unfold try_catch. destruct (body (w, l)) as [[a|e] [w' l']]; simpl in *.
  - exact Hm.
  - apply Hk. exact Hm.
Qed.

End Keeps.

Lemma log_bounded_logged clock page m t w :
  log_bounded w → log_bounded (logged clock page m t w).
Proof.
  unfold log_bounded, logged, page_setDebugLogs. intros H.
  cbn [debugLogs setDebugLogs setDateReads].
  match goal with |- context [if ?b then _ else _] => destruct b end;
    [|exact H].
  rewrite pushDebugLog_length. lia.
Qed.

Lemma log_bounded_cleared page w :
  log_bounded w → log_bounded (page_setDebugLogs page (λ _, []) w).
Proof.
  unfold log_bounded, page_setDebugLogs. intros H.
  cbn [debugLogs setDebugLogs].
  destruct (shown page w); [cbn; lia|exact H].
Qed.

Lemma keeps_addDebugLog {L} clock page m t :
  keeps (L := L) log_bounded (addDebugLog clock page m t).
Proof. apply keeps_react. intros w. apply log_bounded_logged. Qed.

Lemma keeps_fetch {L} r : keeps (L := L) log_bounded (fetch r).
Proof. apply keeps_react. intros w H. exact H. Qed.

Lemma keeps_js_field {L} name v :
  keeps (L := L) log_bounded (js_field name v).
Proof. unfold js_field. destruct v; first [apply keeps_throw|apply keeps_ret]. Qed.

(** Handlers are sequences of setters, log entries and requests. *)
Ltac keeps_log :=
  cbv zeta;
  repeat first
    [ apply keeps_ret | apply keeps_throw | apply keeps_assign
    | apply keeps_read | apply keeps_addDebugLog | apply keeps_fetch
    | apply keeps_js_field
    | apply keeps_react; intros ? ?; assumption
    | apply keeps_bind; [|intros ?]
    | apply keeps_try; [|intros ?]
    | match goal with
      | |- keeps _ (match ?x with _ => _ end) => destruct x
      end ].

Section LogSize.
Variable clock : nat → string.
Variable JSON_stringify : ∀ A : Type, A → string.

Lemma keeps_pollVideoStatus_request {L} p j :
  keeps (L := L) log_bounded (pollVideoStatus_request clock JSON_stringify p j).
Proof. unfold pollVideoStatus_request. keeps_log. Qed.

Lemma keeps_pollVideoStatus_response {L} p j o :
  keeps (L := L) log_bounded
    (pollVideoStatus_response clock JSON_stringify p j o).
Proof. unfold pollVideoStatus_response. keeps_log. Qed.

Lemma keeps_checkAllJobs {L} p jobs :
  keeps (L := L) log_bounded (checkAllJobs clock p jobs).
Proof. unfold checkAllJobs. keeps_log. Qed.

Lemma keeps_applyStatus p f st :
  keeps log_bounded (applyStatus clock JSON_stringify p f st).
Proof. unfold applyStatus, clearInterval. keeps_log. Qed.

Lemma keeps_noteSlowGeneration p jobs :
  keeps log_bounded (noteSlowGeneration clock p jobs).
Proof.
  unfold noteSlowGeneration.
  keeps_log; apply keeps_checkAllJobs.
Qed.

Lemma keeps_pollFailed p m : keeps log_bounded (pollFailed clock p m).
Proof. unfold pollFailed, clearInterval. keeps_log. Qed.

Lemma keeps_pollCallback_begin p :
  keeps log_bounded (pollCallback_begin clock JSON_stringify p).
Proof.
  unfold pollCallback_begin.
  apply keeps_bind; [apply keeps_assign|intros _].
  apply keeps_bind; [apply keeps_read|intros n].
  apply keeps_bind; [apply keeps_read|intros j].
  apply keeps_bind; [apply keeps_addDebugLog|intros _].
  apply keeps_pollVideoStatus_request.
Qed.

Lemma keeps_pollCallback_resume p f o jobs :
  keeps log_bounded (pollCallback_resume clock JSON_stringify p f o jobs).
Proof.
  unfold pollCallback_resume.
  apply keeps_try; [|intros e; apply keeps_pollFailed].
  apply keeps_bind; [apply keeps_read|intros j].
  apply keeps_bind; [apply keeps_pollVideoStatus_response|intros st].
  apply keeps_bind; [apply keeps_applyStatus|intros _].
  apply keeps_noteSlowGeneration.
Qed.

Lemma keeps_pollCallback p f o jobs :
  keeps log_bounded (pollCallback clock JSON_stringify p f o jobs).
Proof.
  unfold pollCallback.
  apply keeps_try; [|intros e; apply keeps_pollFailed].
  apply keeps_bind; [apply keeps_assign|intros _].
  apply keeps_bind; [apply keeps_read|intros n].
  apply keeps_bind; [apply keeps_read|intros j].
  apply keeps_bind; [apply keeps_addDebugLog|intros _].
  apply keeps_bind; [|intros st].
  { unfold pollVideoStatus.
    apply keeps_bind; [apply keeps_pollVideoStatus_request|intros _].
    apply keeps_pollVideoStatus_response. }
  apply keeps_bind; [apply keeps_applyStatus|intros _].
  apply keeps_noteSlowGeneration.
Qed.

Lemma keeps_timeoutCallback p g :
  keeps log_bounded (timeoutCallback clock p g).
Proof. unfold timeoutCallback, clearInterval. keeps_log. Qed.

Lemma keeps_realVideoGeneration_begin p f :
  keeps log_bounded (realVideoGeneration_begin clock JSON_stringify p f).
Proof.
  unfold realVideoGeneration_begin, startVideoGeneration_request.
  apply keeps_bind; [apply keeps_react; intros w H; exact H|intros _].
  apply keeps_bind; [apply keeps_react; intros w H; exact H|intros _].
  apply keeps_bind; [apply keeps_react; intros w H; exact H|intros _].
  apply keeps_bind; [apply keeps_react; intros w H; exact H|intros _].
  apply keeps_bind;
    [apply keeps_react; intros w; apply log_bounded_cleared|intros _].
  keeps_log.
Qed.

Lemma keeps_realVideoGeneration_resume p h o :
  keeps log_bounded (realVideoGeneration_resume clock JSON_stringify p h o).
Proof.
  unfold realVideoGeneration_resume, startVideoGeneration_response.
  keeps_log.
Qed.

Lemma keeps_testBackendConnection {L} p o :
  keeps (L := L) log_bounded (testBackendConnection clock p o).
Proof. unfold testBackendConnection. keeps_log. Qed.

Lemma log_bounded_settle c w : log_bounded w → log_bounded (settle c w).
Proof. destruct c; intros H; exact H. Qed.

Lemma log_bounded_step s e s' :
  step_page clock JSON_stringify s e = Some s' →
  log_bounded (world s) → log_bounded (world s').
Proof.
  intros H B.
  destruct e as [[edit|ok| | |i o|i|i k o jobs|i o jobs|i]| |o|jobs| |];
    cbn [step_page] in H.
  - simpl in H.
    destruct (mounted (world s) && negb (isGenerating (world s)));
      [|discriminate].
    injection H as <-. exact B.
  - injection H as <-. exact B.
  - simpl in H. destruct (mounted (world s)); [|discriminate].
    injection H as <-.
    destruct (click_cases clock JSON_stringify s)
      as [[_ ->]|(_ & _ & _ & _ & ->)]; [exact B|].
    pose proof (keeps_realVideoGeneration_begin (instance (world s))
                  (formData (world s)) (world s) () B) as K.
    unfold realVideoGeneration.
    destruct (realVideoGeneration_begin clock JSON_stringify
                (instance (world s)) (formData (world s)) (world s, ()))
      as [c [w' u]].
    exact K.
  - simpl in H. destruct (mounted (world s)); [|discriminate].
    injection H as <-. unfold log_bounded. simpl. lia.
  - unfold step in H.
    destruct (runs s !! i) as [[f g p [| |l]]|]; try discriminate.
    pose proof (keeps_realVideoGeneration_resume p (Pos.of_succ_nat i) o
                  (world s) () B) as K.
    destruct (realVideoGeneration_resume clock JSON_stringify p
                (Pos.of_succ_nat i) o (world s, ())) as [c [w' u]].
    injection H as <-. exact K.
  - unfold step in H.
    destruct (runs s !! i) as [[f g p [| |l]]|]; try discriminate.
    destruct (ticking l); [|discriminate].
    pose proof (keeps_pollCallback_begin p (world s) l B) as K.
    destruct (pollCallback_begin clock JSON_stringify p (world s, l))
      as [c [w' l']].
    injection H as <-. apply log_bounded_settle. exact K.
  - unfold step in H.
    destruct (runs s !! i) as [[f g p [| |l]]|]; try discriminate.
    destruct (bool_decide (k ∈ inFlight l)); [|discriminate].
    pose proof (keeps_pollCallback_resume p f o jobs (world s)
                  (setInFlight (filter (λ j, j ≠ k) (inFlight l)) l) B) as K.
    destruct (pollCallback_resume clock JSON_stringify p f o jobs
                (world s, setInFlight (filter (λ j, j ≠ k) (inFlight l)) l))
      as [c [w' l']].
    injection H as <-. apply log_bounded_settle. exact K.
  - unfold step in H.
    destruct (runs s !! i) as [[f g p [| |l]]|]; try discriminate.
    destruct (ticking l); [|discriminate].
    pose proof (keeps_pollCallback p f o jobs (world s) l B) as K.
    destruct (pollCallback clock JSON_stringify p f o jobs (world s, l))
      as [c [w' l']].
    injection H as <-. apply log_bounded_settle. exact K.
  - unfold step in H.
    destruct (runs s !! i) as [[f g p [| |l]]|]; try discriminate.
    destruct (timeoutPending l); [|discriminate].
    pose proof (keeps_timeoutCallback p g (world s) (setTimeoutPending false l) B)
      as K.
    destruct (timeoutCallback clock p g (world s, setTimeoutPending false l))
      as [c [w' l']].
    injection H as <-. apply log_bounded_settle. exact K.
  - destruct (generatedVideo (world s)); [|discriminate].
    destruct (mounted (world s)); [|discriminate].
    injection H as <-. exact B.
  - destruct (mounted (world s)); [|discriminate].
    pose proof (keeps_testBackendConnection (instance (world s)) o
                  (world s) () B) as K.
    destruct (testBackendConnection clock (instance (world s)) o (world s, ()))
      as [c [w' u]].
    injection H as <-. apply log_bounded_settle. exact K.
  - destruct (mounted (world s)); [|discriminate].
    pose proof (keeps_checkAllJobs (instance (world s)) jobs (world s) () B)
      as K.
    destruct (checkAllJobs clock (instance (world s)) jobs (world s, ()))
      as [c [w' u]].
    injection H as <-. apply log_bounded_settle. exact K.
  - destruct (mounted (world s)); [|discriminate].
    injection H as <-. exact B.
  - destruct (mounted (world s)); [discriminate|].
    injection H as <-. unfold log_bounded. simpl. lia.
Qed.

End LogSize.

(** ** The requests on record *)

Section Requests.
Variable JSON_stringify : ∀ A : Type, A → string.

Lemma omap_submitted_snoc rq r :
  omap submitted_body (rq ++ [r])
  = omap submitted_body rq
    ++ match submitted_body r with Some v => [v] | None => [] end.
Proof. rewrite omap_app. cbn. destruct (submitted_body r); reflexivity. Qed.

Lemma fmap_insert_form (rs : list Run) i f g p ph ph' :
  rs !! i = Some (mkRun f g p ph) →
  (λ r, videoRequest_of (r_formData r)) <$> <[i := mkRun f g p ph']> rs
  = (λ r, videoRequest_of (r_formData r)) <$> rs.
Proof.
  intros Hi. rewrite list_fmap_insert. cbn.
  apply list_insert_id. rewrite list_lookup_fmap, Hi. reflexivity.
Qed.

Lemma answered_requests_jobs l a r :
  r ∈ answered_requests l a → r = GetJobs.
Proof.
  unfold answered_requests. destruct a as [m|st]; [intros H; inversion H|].
  destruct (verdict st); try (intros H; inversion H; fail);
    destruct (pollCount l =? 40)%nat; intros H;
    first [apply list_elem_of_singleton in H; exact H|inversion H].
Qed.

(** Run [i] goes on polling for the same job. *)
Lemma requests_inv_update rs q rq i f g p l l' q' extra :
  requests_inv (rs, q, rq) →
  rs !! i = Some (mkRun f g p (Polling l)) →
  currentJobId l' = currentJobId l →
  (∀ r, r ∈ extra → r = GetJobs ∨ r = GetVideoStatus (currentJobId l)) →
  requests_inv (<[i := mkRun f g p (Polling l')]> rs, q', rq ++ extra).
Proof.
  intros (Hposts & Hblank & Hq) Hi Hjob Hextra.
  pose proof (lookup_lt_Some _ _ _ Hi) as Hlt.
  assert (Hnone : omap submitted_body extra = []).
  { induction extra as [|r extra IH]; [reflexivity|].
    cbn. destruct (Hextra r (list_elem_of_here _ _)) as [->| ->]; cbn;
      apply IH; intros r' Hr'; apply Hextra; right; exact Hr'. }
  split; [|split].
  - rewrite omap_app, Hnone, app_nil_r.
    rewrite (fmap_insert_form rs i f g p (Polling l) (Polling l') Hi).
    exact Hposts.
  - apply Forall_insert; [exact Hblank|].
    exact (Forall_lookup_1 _ _ _ _ Hblank Hi).
  - intros job Hin.
    assert (GetVideoStatus job ∈ rq ∨ job = currentJobId l) as [Hold| ->].
    { apply elem_of_app in Hin as [Hin|Hin]; [auto|].
      destruct (Hextra _ Hin) as [E|E]; [discriminate|].
      injection E as ->. auto. }
    + destruct (Hq job Hold) as (j & fj & gj & pj & lj & Hj & Hjj).
      destruct (decide (i = j)) as [->|Hne].
      * rewrite Hi in Hj. injection Hj as -> -> -> ->.
        exists j, fj, gj, pj, l'. rewrite list_lookup_insert_eq by exact Hlt.
        split; [reflexivity|congruence].
      * exists j, fj, gj, pj, lj.
        rewrite list_lookup_insert_ne by exact Hne. auto.
    + exists i, f, g, p, l'. rewrite list_lookup_insert_eq by exact Hlt.
      auto.
Qed.

Lemma requests_inv_world rs q rq q' :
  requests_inv (rs, q, rq) → requests_inv (rs, q', rq).
Proof. intros H. exact H. Qed.

Lemma requests_inv_step a e a' :
  Forall run_ok a.1.1 →
  requests_inv a → control_step JSON_stringify a e = Some a' →
  requests_inv a'.
Proof.
  destruct a as [[rs q] rq]. intros Iruns I H. cbn in Iruns.
  control_cases H; try exact I.
  - (* a run is started *)
    destruct I as (Hposts & Hblank & Hq).
    unfold submit_disabled in Hb0.
    apply orb_false_elim in Hb0 as (Hb0 & _).
    apply orb_false_elim in Hb0 as (_ & Hblank').
    split; [|split].
    + rewrite omap_submitted_snoc, fmap_app, Hposts. reflexivity.
    + apply Forall_app. split; [exact Hblank|].
      apply Forall_singleton. exact Hblank'.
    + intros job Hin. apply elem_of_app in Hin as [Hin|Hin].
      * destruct (Hq job Hin) as (j & fj & gj & pj & lj & Hj & Hjj).
        exists j, fj, gj, pj, lj. split; [|exact Hjj].
        apply lookup_app_l_Some. exact Hj.
      * apply list_elem_of_singleton in Hin. discriminate.
  - (* the submission is answered *)
    destruct I as (Hposts & Hblank & Hq).
    pose proof (lookup_lt_Some _ _ _ Hr) as Hlt.
    split; [|split].
    + rewrite (fmap_insert_form rs i f g p Submitting _ Hr). exact Hposts.
    + apply Forall_insert; [exact Hblank|].
      exact (Forall_lookup_1 _ _ _ _ Hblank Hr).
    + intros job Hin.
      destruct (Hq job Hin) as (j & fj & gj & pj & lj & Hj & Hjj).
      exists j, fj, gj, pj, lj. split; [|exact Hjj].
      rewrite list_lookup_insert_ne; [exact Hj|].
      intros ->. rewrite Hr in Hj. discriminate.
  - (* a tick *)
    eapply requests_inv_update; [exact I|exact Hr|reflexivity|].
    intros r Hin. apply list_elem_of_singleton in Hin. auto.
  - (* an answer *)
    eapply requests_inv_update; [exact I|exact Hr|..].
    + destruct (answered_loop_fields (landed k l) (answer o)) as (Hj & _).
      exact Hj.
    + intros r Hin. left. eapply answered_requests_jobs. exact Hin.
  - (* a tick answered at once *)
    eapply requests_inv_update; [exact I|exact Hr|..].
    + unfold poll_loop.
      destruct (answered_loop_fields (setPollCount (S (pollCount l)) l)
                  (answer o)) as (Hj & _).
      exact Hj.
    + intros r Hin. unfold poll_requests in Hin.
      apply elem_of_cons in Hin as [->|Hin]; [auto|].
      left. eapply answered_requests_jobs. exact Hin.
  - (* the timeout *)
    rewrite <- (app_nil_r rq).
    eapply requests_inv_update; [exact I|exact Hr|reflexivity|].
    intros r Hin. inversion Hin.
  - (* the job list *)
    destruct I as (Hposts & Hblank & Hq). split; [|split].
    + rewrite omap_submitted_snoc. cbn. rewrite app_nil_r. exact Hposts.
    + exact Hblank.
    + intros job Hin. apply elem_of_app in Hin as [Hin|Hin]; [auto|].
      apply list_elem_of_singleton in Hin. discriminate.
Qed.

End Requests.

(** ** How runs change *)

Lemma evolves_refl r : evolves r r.
Proof.
  unfold evolves. repeat split. destruct (r_phase r); auto.
Qed.

Lemma evolves_trans r1 r2 r3 : evolves r1 r2 → evolves r2 r3 → evolves r1 r3.
Proof.
  unfold evolves. intros (F12 & G12 & P12 & H12) (F23 & G23 & P23 & H23).
  split; [congruence|]. split; [congruence|]. split; [congruence|].
  destruct (r_phase r1), (r_phase r2), (r_phase r3); try tauto.
  destruct H12 as (J12 & Ha & Ht & Hc), H23 as (J23 & Ha' & Ht' & Hc').
  split; [congruence|]. split; [auto|]. split; [auto|lia].
Qed.

Lemma evolves_insert (rs : list Run) i f g p ph ph' j r :
  rs !! i = Some (mkRun f g p ph) →
  evolves (mkRun f g p ph) (mkRun f g p ph') →
  rs !! j = Some r →
  ∃ r', <[i := mkRun f g p ph']> rs !! j = Some r' ∧ evolves r r'.
Proof.
  intros Hi He Hj. pose proof (lookup_lt_Some _ _ _ Hi) as Hlt.
  destruct (decide (i = j)) as [->|Hne].
  - rewrite list_lookup_insert_eq by exact Hlt.
    rewrite Hi in Hj. injection Hj as <-. eauto.
  - rewrite list_lookup_insert_ne by exact Hne.
    exists r. split; [exact Hj|apply evolves_refl].
Qed.

Lemma evolves_answered f g p l l1 a :
  currentJobId l1 = currentJobId l →
  intervalActive l1 = intervalActive l →
  timeoutPending l1 = timeoutPending l →
  (pollCount l ≤ pollCount l1)%nat →
  evolves (mkRun f g p (Polling l))
          (mkRun f g p (Polling (answered_loop l1 a))).
Proof.
  intros Hj Ha Ht Hc.
  destruct (answered_loop_fields l1 a) as (Lj & Lc & _ & Lt & La).
  unfold evolves. cbn.
  split; [reflexivity|]. split; [reflexivity|]. split; [reflexivity|].
  split; [congruence|]. split; [intros H; rewrite <- Ha; auto|].
  split; [congruence|lia].
Qed.

Section Evolution.
Variable clock : nat → string.
Variable JSON_stringify : ∀ A : Type, A → string.

Lemma runs_evolve a e a' :
  control_step JSON_stringify a e = Some a' →
  ∀ j r, a.1.1 !! j = Some r →
  ∃ r', a'.1.1 !! j = Some r' ∧ evolves r r'.
Proof.
  destruct a as [[rs q] rq]. intros H j r Hj. cbn in Hj.
  control_cases H; cbn;
    try (exists r; split; [exact Hj|apply evolves_refl]; fail).
  - exists r. split; [apply lookup_app_l_Some; exact Hj|apply evolves_refl].
  - eapply evolves_insert; [exact Hr| |exact Hj].
    unfold evolves. cbn. auto.
  - eapply evolves_insert; [exact Hr| |exact Hj].
    unfold evolves. cbn. repeat split; auto.
  - eapply evolves_insert; [exact Hr| |exact Hj].
    apply evolves_answered; reflexivity.
  - eapply evolves_insert; [exact Hr| |exact Hj].
    apply evolves_answered; cbn; auto.
  - eapply evolves_insert; [exact Hr| |exact Hj].
    unfold evolves. cbn. repeat split; auto; discriminate.
Qed.

Lemma runs_evolve_exec s tr s' :
  exec_page clock JSON_stringify s tr = Some s' →
  ∀ j r, runs s !! j = Some r →
  ∃ r', runs s' !! j = Some r' ∧ evolves r r'.
Proof.
  intros H.
  refine (control_exec clock JSON_stringify
            (λ a, ∀ j r, runs s !! j = Some r →
                  ∃ r', a.1.1 !! j = Some r' ∧ evolves r r')
            _ tr s s' _ H).
  - intros a e a' K Hstep j r Hj.
    destruct (K j r Hj) as (r1 & Hj1 & He1).
    destruct (runs_evolve a e a' Hstep j r1 Hj1) as (r2 & Hj2 & He2).
    exists r2. split; [exact Hj2|]. eapply evolves_trans; eauto.
  - intros j r Hj. exists r. split; [exact Hj|apply evolves_refl].
Qed.


(** A failed submission stays failed. *)
Lemma failed_forever s i tr s' :
  submit_failed s i →
  exec_page clock JSON_stringify s tr = Some s' →
  submit_failed s' i.
Proof.
  intros (f & g & p & Hr) H.
  destruct (runs_evolve_exec s tr s' H i _ Hr) as ([f' g' p' ph'] & Hr' & He).
  destruct He as (_ & _ & _ & He). cbn in He.
  destruct ph'; try contradiction. exists f', g', p'. exact Hr'.
Qed.

(** A cleared interval does not tick. *)
Lemma cleared_refuses s i l :
  loop_of s i = Some l → intervalActive l = false →
  step clock JSON_stringify s (IntervalStarts i) = None
  ∧ ∀ o jobs, step clock JSON_stringify s (IntervalFires i o jobs) = None.
Proof.
  unfold loop_of, step. intros Hl Hoff.
  destruct (runs s !! i) as [[f g p [| |l0]]|]; try discriminate.
  injection Hl as ->. unfold ticking. rewrite Hoff. auto.
Qed.

(** A run whose submission failed has no timers and awaits nothing. *)
Lemma failed_refuses s i :
  submit_failed s i →
  (∀ o, step clock JSON_stringify s (Submitted i o) = None)
  ∧ step clock JSON_stringify s (IntervalStarts i) = None
  ∧ (∀ k o jobs, step clock JSON_stringify s (StatusAnswered i k o jobs) = None)
  ∧ (∀ o jobs, step clock JSON_stringify s (IntervalFires i o jobs) = None)
  ∧ step clock JSON_stringify s (TimeoutFires i) = None.
Proof.
  intros (f & g & p & Hr). unfold step. rewrite Hr. auto.
Qed.

(** ** The events of a run, one by one *)

Lemma step_exists s e a :
  control_step JSON_stringify (control_of s) (Core e) = Some a →
  ∃ s', step clock JSON_stringify s e = Some s'
        ∧ runs s' = a.1.1 ∧ quiet (world s') = a.1.2
        ∧ requests (world s') = a.2.
Proof. apply (step_page_exists clock JSON_stringify s (Core e)). Qed.

Lemma submitted_step s i f g p o :
  runs s !! i = Some (mkRun f g p Submitting) →
  ∃ s', step clock JSON_stringify s (Submitted i o) = Some s'
    ∧ runs s' = <[i := mkRun f g p
                     match submission JSON_stringify o with
                     | Normal job => Polling (new_loop i job)
                     | Throw _ => SubmitFailed
                     end]> (runs s)
    ∧ quiet (world s')
      = match submission JSON_stringify o with
        | Normal job => page_setJobId p job (quiet (world s))
        | Throw m =>
            setIsGenerating false
              (setError (js_or m "Failed to generate video. Please try again.")
                 (quiet (world s)))
        end
    ∧ requests (world s') = requests (world s).
Proof.
  intros Hr. apply (step_exists s _ (_, _, _)). unfold control_of. cbn [control_step].
  rewrite Hr. reflexivity.
Qed.

Lemma tick_step s i f g p l :
  runs s !! i = Some (mkRun f g p (Polling l)) → ticking l = true →
  ∃ s', step clock JSON_stringify s (IntervalStarts i) = Some s'
    ∧ runs s' = <[i := mkRun f g p (Polling (ticked l))]> (runs s)
    ∧ quiet (world s') = quiet (world s)
    ∧ requests (world s')
      = requests (world s) ++ [GetVideoStatus (currentJobId l)].
Proof.
  intros Hr Ht. apply (step_exists s _ (_, _, _)). unfold control_of. cbn [control_step].
  rewrite Hr, Ht. reflexivity.
Qed.

Lemma answered_step s i f g p l k o jobs :
  runs s !! i = Some (mkRun f g p (Polling l)) → k ∈ inFlight l →
  ∃ s', step clock JSON_stringify s (StatusAnswered i k o jobs) = Some s'
    ∧ runs s' = <[i := mkRun f g p
                     (Polling (answered_loop (landed k l) (answer o)))]>
                  (runs s)
    ∧ quiet (world s')
      = settle (answered_completion l (answer o))
          (answered_world JSON_stringify f l (answer o) (quiet (world s)))
    ∧ requests (world s')
      = requests (world s) ++ answered_requests l (answer o).
Proof.
  intros Hr Hk. apply (step_exists s _ (_, _, _)). unfold control_of. cbn [control_step].
  rewrite Hr, bool_decide_eq_true_2 by exact Hk. reflexivity.
Qed.

Lemma fired_step s i f g p l o jobs :
  runs s !! i = Some (mkRun f g p (Polling l)) → ticking l = true →
  ∃ s', step clock JSON_stringify s (IntervalFires i o jobs) = Some s'
    ∧ runs s' = <[i := mkRun f g p (Polling (poll_loop l (answer o)))]>
                  (runs s)
    ∧ quiet (world s')
      = settle (poll_completion l (answer o))
          (answered_world JSON_stringify f l (answer o) (quiet (world s)))
    ∧ requests (world s')
      = requests (world s) ++ poll_requests l (answer o).
Proof.
  intros Hr Ht. apply (step_exists s _ (_, _, _)). unfold control_of. cbn [control_step].
  rewrite Hr, Ht. reflexivity.
Qed.

Lemma timeout_step s i f g p l :
  runs s !! i = Some (mkRun f g p (Polling l)) → timeoutPending l = true →
  ∃ s', step clock JSON_stringify s (TimeoutFires i) = Some s'
    ∧ runs s' = <[i := mkRun f g p (Polling
                     (setIntervalActive false (setTimeoutPending false l)))]>
                  (runs s)
    ∧ quiet (world s') = timeout_world g (quiet (world s))
    ∧ requests (world s') = requests (world s).
Proof.
  intros Hr Ht. apply (step_exists s _ (_, _, _)). unfold control_of. cbn [control_step].
  rewrite Hr, Ht. reflexivity.
Qed.

Lemma loop_of_run s i l :
  loop_of s i = Some l ↔ ∃ f g p, runs s !! i = Some (mkRun f g p (Polling l)).
Proof.
  unfold loop_of. split.
  - destruct (runs s !! i) as [[f g p [| |l0]]|]; try discriminate.
    intros [= ->]. eauto.
  - intros (f & g & p & ->). reflexivity.
Qed.

Lemma loop_of_insert s s' i f g p l' :
  (i < length (runs s))%nat →
  runs s' = <[i := mkRun f g p (Polling l')]> (runs s) →
  loop_of s' i = Some l'.
Proof.
  intros Hlt Hr. unfold loop_of. rewrite Hr, list_lookup_insert_eq by exact Hlt.
  reflexivity.
Qed.

End Evolution.

(** ** A tick that is answered at once *)

Lemma filter_landed (k : nat) (ks : list nat) :
  Forall (λ j, (j < k)%nat) ks → filter (λ j, j ≠ k) (ks ++ [k]) = ks.
Proof.
  intros H. rewrite filter_app.
  replace (filter (λ j, j ≠ k) [k]) with (@nil nat).
  - rewrite app_nil_r. induction H as [|j ks Hj H IH]; [reflexivity|].
    rewrite filter_cons_True by lia. rewrite IH. reflexivity.
  - rewrite filter_cons_False by (intros H'; apply H'; reflexivity).
    reflexivity.
Qed.

Section Fused.
Variable clock : nat → string.
Variable JSON_stringify : ∀ A : Type, A → string.

(** [IntervalFires] is not an event of its own: in every state of the
    page it is a tick followed at once by the answer to the query of
    that tick. *)
Lemma tick_answered_at_once (s : State) (i : nat) (o : Fetched Json)
    (jobs : Fetched JobsBody) :
  reachable_page clock JSON_stringify s →
  step clock JSON_stringify s (IntervalFires i o jobs)
  = step clock JSON_stringify s (IntervalStarts i)
    ≫= λ s1, match loop_of s1 i with
              | Some l1 =>
                  step clock JSON_stringify s1
                    (StatusAnswered i (pollCount l1) o jobs)
              | None => None
              end.
Proof.
  intros Hreach.
  pose proof (page_inv_reachable clock JSON_stringify s Hreach) as I.
  pose proof (inv_runs _ _ I) as Iruns. cbn in Iruns.
  unfold step at 1 3.
  destruct (runs s !! i) as [[f g p [| |l]]|] eqn:Hr; try reflexivity.
  destruct (ticking l) eqn:Ht; [|reflexivity].
  pose proof (Forall_lookup_1 _ _ _ _ Iruns Hr) as (_ & _ & _ & Hall & _).
  cbn in Hall.
  pose proof (lookup_lt_Some _ _ _ Hr) as Hlt.
  destruct (pollCallback_begin_run clock JSON_stringify p (world s) l)
    as (w1 & Eb & _ & _).
  rewrite pollCallback_split. rewrite Eb.
  cbn [settle mbind option_bind].
  unfold loop_of. cbn [runs]. rewrite list_lookup_insert_eq by exact Hlt.
  cbn [r_phase pollCount setInFlight setPollCount].
  unfold step. cbn [runs world].
  rewrite list_lookup_insert_eq by exact Hlt.
  cbn [inFlight setInFlight setPollCount pollCount].
  rewrite bool_decide_eq_true_2
    by (apply elem_of_app; right; apply list_elem_of_here).
  rewrite filter_landed
    by (eapply Forall_impl; [exact Hall|]; cbn; intros; lia).
  replace (setInFlight (inFlight l)
             (setInFlight (inFlight l ++ [S (pollCount l)])
                (setPollCount (S (pollCount l)) l)))
    with (setPollCount (S (pollCount l)) l) by (destruct l; reflexivity).
  unfold mbind, Js_bind. rewrite Eb.
  destruct (pollCallback_resume clock JSON_stringify p f o jobs
              (w1, setPollCount (S (pollCount l)) l)) as [c [w' l']].
  rewrite list_insert_insert_eq. reflexivity.
Qed.

End Fused.

(** * The claims that the code does not meet, on concrete runs *)

(** C9. Twenty-one appends to an empty log leave twenty-one entries,
    in the order of insertion: the capacity is 21, not 20. *)
Theorem debug_log_keeps_21_entries :
  debugLogs (log_all noon numbered initialWorld)
  = (λ k : nat, mkDebugLog "12:00:00" (pretty k) info) <$> seq 1 21
  ∧ length (debugLogs (log_all noon numbered initialWorld)) = 21.
Proof. split; vm_compute; reflexivity. Qed.

(** C1. The timeout fires before any terminal status: the interval is
    cleared, but no error is shown and the page still says that it is
    generating, because the callback tests the [isGenerating] of the
    render that started the run, which was false. The timeout fires
    after the run completed: it is not inert, it appends its warning to
    the log. *)
Theorem timeout_guard_reports_nothing :
  (∃ s,
     exec noon braces initialState (started ++ [TimeoutFires 0]) = Some s
     ∧ error (world s) = ""
     ∧ isGenerating (world s) = true
     ∧ ∃ l, loop_of s 0 = Some l ∧ intervalActive l = false)
  ∧ (∃ s s',
       exec noon braces initialState
         (started ++ [IntervalFires 0 (snapshot "completed" (Some 100%Z))
                        no_jobs]) = Some s
       ∧ isGenerating (world s) = false
       ∧ step noon braces s (TimeoutFires 0) = Some s'
       ∧ debugLogs (world s')
         = debugLogs (world s)
           ++ [mkDebugLog "12:00:00" "⏰ 15 minute timeout reached" warning]).
Proof.
  split.
  - eexists. split; [vm_compute; reflexivity|].
    repeat split. eexists. split; reflexivity.
  - eexists _, _. split; [vm_compute; reflexivity|].
    split; [reflexivity|]. split; [vm_compute; reflexivity|].
    vm_compute. reflexivity.
Qed.

(** C2. Three status queries in a row get no answer: the interval is
    cleared and the exception that the callback throws is caught by
    nobody; no error is shown and the page still says that it is
    generating. *)
Theorem exhausted_polling_reports_nothing :
  ∃ s,
    exec noon braces initialState
      (started ++ polls 0 [(unreachable, no_jobs); (unreachable, no_jobs);
                           (unreachable, no_jobs)]) = Some s
    ∧ error (world s) = ""
    ∧ isGenerating (world s) = true
    ∧ unhandled (world s)
      = ["Polling failed after 3 consecutive errors: Failed to fetch"]
    ∧ (∃ l, loop_of s 0 = Some l ∧ intervalActive l = false
            ∧ consecutiveErrors l = 3 ∧ pollCount l = 3)
    ∧ step noon braces s (IntervalFires 0 unreachable no_jobs) = None.
Proof.
  eexists. split; [vm_compute; reflexivity|].
  repeat split. eexists. repeat split.
Qed.

(** C4. The service reports the job as failed: the interval is cleared
    and the failure is counted as the first poll error and written to
    the log; no error is shown and the page still says that it is
    generating. *)
Theorem failed_status_reports_nothing :
  ∃ s,
    exec noon braces initialState
      (started ++ [IntervalFires 0
         (FetchResponse 200 ""
            (inr {| status := "failed"; st_progress := Some 40%Z;
                    current_step := None;
                    st_error := Some "render crashed" |})) no_jobs]) = Some s
    ∧ error (world s) = ""
    ∧ isGenerating (world s) = true
    ∧ unhandled (world s) = []
    ∧ (∃ l, loop_of s 0 = Some l ∧ intervalActive l = false
            ∧ consecutiveErrors l = 1)
    ∧ last (debugLogs (world s))
      = Some (mkDebugLog "12:00:00" "🚨 Poll error 1/3: render crashed" error_).
Proof.
  eexists. split; [vm_compute; reflexivity|].
  repeat split. eexists. repeat split.
Qed.

(** ** Failures that reach no observer *)

Lemma verdict_failed st :
  js_get "status" st = Some (JString "failed") → verdict st = Failed.
Proof.
  intros H. unfold verdict. rewrite H.
  destruct st; try discriminate. reflexivity.
Qed.

Section Silent.
Variable clock : nat → string.
Variable JSON_stringify : ∀ A : Type, A → string.

(** A snapshot that reports [failed] stops the loop and is counted as
    a poll error, whether it answers a tick at once or arrives later;
    the error shown and the generating flag stay as they were. *)
Lemma failed_status_stops_silently (s : State) (i : nat) (l : Loop)
    (code : N) (text : string) (st : Json) (jobs : Fetched JobsBody) :
  loop_of s i = Some l →
  response_ok code = true →
  js_get "status" st = Some (JString "failed") →
  ∀ e,
    (ticking l = true
     ∧ e = IntervalFires i (FetchResponse code text (inr st)) jobs)
    ∨ (∃ k, k ∈ inFlight l
            ∧ e = StatusAnswered i k (FetchResponse code text (inr st)) jobs) →
    ∃ s' l',
      step clock JSON_stringify s e = Some s'
      ∧ loop_of s' i = Some l' ∧ intervalActive l' = false
      ∧ consecutiveErrors l' = 1
      ∧ error (world s') = error (world s)
      ∧ isGenerating (world s') = isGenerating (world s)
      ∧ unhandled (world s') = unhandled (world s).
Proof.
  intros Hl Hok Hst e He. apply loop_of_run in Hl as (f & g & p & Hr).
  pose proof (verdict_failed st Hst) as V.
  pose proof (lookup_lt_Some _ _ _ Hr) as Hlt.
  assert (A : answer (FetchResponse code text (inr st)) = Snapshot st)
    by (unfold answer; rewrite Hok; reflexivity).
  assert (Hw : ∀ (s' : State) c,
            c = Normal () →
            quiet (world s')
            = settle c (answered_world JSON_stringify f l (Snapshot st)
                          (quiet (world s))) →
            error (world s') = error (world s)
            ∧ isGenerating (world s') = isGenerating (world s)
            ∧ unhandled (world s') = unhandled (world s)).
  { intros s' c -> Q. cbn [settle] in Q.
    unfold answered_world in Q. rewrite V in Q.
    destruct (projected_fields st (quiet (world s)))
      as (_ & _ & Hg & _ & He' & _ & Hu & _).
    split; [apply (f_equal error) in Q; cbn in Q; rewrite He' in Q; exact Q|].
    split; [apply (f_equal isGenerating) in Q; cbn in Q; rewrite Hg in Q;
            exact Q|].
    apply (f_equal unhandled) in Q. cbn in Q. rewrite Hu in Q. exact Q. }
  destruct He as [(Ht & ->)|(k & Hk & ->)].
  - destruct (fired_step clock JSON_stringify s i f g p l
                (FetchResponse code text (inr st)) jobs Hr Ht)
      as (s' & E & R & Q & _).
    rewrite A in R, Q. exists s', (poll_loop l (Snapshot st)).
    split; [exact E|]. split; [eapply loop_of_insert; eauto|].
    unfold poll_loop, answered_loop. rewrite V.
    split; [reflexivity|]. split; [reflexivity|].
    apply (Hw s' _ eq_refl Q).
  - destruct (answered_step clock JSON_stringify s i f g p l k
                (FetchResponse code text (inr st)) jobs Hr Hk)
      as (s' & E & R & Q & _).
    rewrite A in R, Q. exists s', (answered_loop (landed k l) (Snapshot st)).
    split; [exact E|]. split; [eapply loop_of_insert; eauto|].
    unfold answered_loop. rewrite V.
    split; [reflexivity|]. split; [reflexivity|].
    apply (Hw s' _ eq_refl Q).
Qed.

(** The failed query that brings the counter to the threshold stops the
    loop and rejects the promise of the callback, which nobody awaits;
    the error shown and the generating flag stay as they were. *)
Lemma exhausted_polls_stop_silently (s : State) (i : nat) (l : Loop)
    (o : Fetched Json) (jobs : Fetched JobsBody) (m : string) :
  loop_of s i = Some l →
  answer o = Failure m →
  (maxConsecutiveErrors ≤ S (consecutiveErrors l))%nat →
  ∀ e,
    (ticking l = true ∧ e = IntervalFires i o jobs)
    ∨ (∃ k, k ∈ inFlight l ∧ e = StatusAnswered i k o jobs) →
    ∃ s' l',
      step clock JSON_stringify s e = Some s'
      ∧ loop_of s' i = Some l' ∧ intervalActive l' = false
      ∧ error (world s') = error (world s)
      ∧ isGenerating (world s') = isGenerating (world s)
      ∧ unhandled (world s')
        = unhandled (world s)
          ++ ["Polling failed after " +:+ pretty maxConsecutiveErrors
              +:+ " consecutive errors: " +:+ m].
Proof.
  intros Hl Hans Hle e He. apply loop_of_run in Hl as (f & g & p & Hr).
  pose proof (lookup_lt_Some _ _ _ Hr) as Hlt.
  assert (Hthrow : rethrown l m = Throw (exhausted m)).
  { unfold rethrown, exhausted.
    destruct (Nat.leb_spec maxConsecutiveErrors (S (consecutiveErrors l)));
      [reflexivity|lia]. }
  assert (Hoff : ∀ l1, consecutiveErrors l1 = consecutiveErrors l →
                 intervalActive (caught l1) = false).
  { intros l1 Hc. destruct (caught_fields l1) as (_ & _ & _ & _ & _ & ->).
    rewrite Hc.
    destruct (Nat.ltb_spec (S (consecutiveErrors l)) maxConsecutiveErrors);
      [lia|apply andb_false_r]. }
  destruct He as [(Ht & ->)|(k & Hk & ->)].
  - destruct (fired_step clock JSON_stringify s i f g p l o jobs Hr Ht)
      as (s' & E & R & Q & _).
    rewrite Hans in R, Q. unfold poll_completion in Q.
    cbn [answered_completion answered_world] in Q. rewrite Hthrow in Q.
    exists s', (poll_loop l (Failure m)).
    split; [exact E|]. split; [eapply loop_of_insert; eauto|].
    split; [apply Hoff; reflexivity|].
    split; [exact (f_equal error Q)|].
    split; [exact (f_equal isGenerating Q)|exact (f_equal unhandled Q)].
  - destruct (answered_step clock JSON_stringify s i f g p l k o jobs Hr Hk)
      as (s' & E & R & Q & _).
    rewrite Hans in R, Q.
    cbn [answered_completion answered_world] in Q. rewrite Hthrow in Q.
    exists s', (answered_loop (landed k l) (Failure m)).
    split; [exact E|]. split; [eapply loop_of_insert; eauto|].
    split; [apply Hoff; reflexivity|].
    split; [exact (f_equal error Q)|].
    split; [exact (f_equal isGenerating Q)|exact (f_equal unhandled Q)].
Qed.

(** In every state that the page can reach, the timeout callback
    clears the interval, whatever became of the run; the error shown
    and the generating flag stay as they were. *)
Lemma timeout_stops_silently (s : State) (i : nat) (s' : State) :
  reachable_page clock JSON_stringify s →
  step clock JSON_stringify s (TimeoutFires i) = Some s' →
  (∃ l', loop_of s' i = Some l' ∧ intervalActive l' = false)
  ∧ quiet (world s') = quiet (world s)
  ∧ requests (world s') = requests (world s).
Proof.
  intros Hreach H.
  pose proof (page_inv_reachable clock JSON_stringify s Hreach) as I.
  pose proof (inv_runs _ _ I) as Iruns. cbn in Iruns.
  pose proof H as H0. unfold step in H0.
  destruct (runs s !! i) as [[f g p [| |l]]|] eqn:Hr; try discriminate.
  destruct (timeoutPending l) eqn:Ht; [|discriminate]. clear H0.
  pose proof (Forall_lookup_1 _ _ _ _ Iruns Hr) as (Hg & _).
  cbn in Hg. subst g.
  destruct (timeout_step clock JSON_stringify s i f false p l Hr Ht)
    as (s1 & E & R & Q & Rq).
  rewrite E in H. injection H as <-.
  split; [|split; [exact Q|exact Rq]].
  eexists. split; [eapply loop_of_insert; [|exact R]|reflexivity].
  eapply lookup_lt_Some; eauto.
Qed.

End Silent.

(** * The claims about the interval callback *)



Section Callback.
Variable clock : nat → string.
Variable JSON_stringify : ∀ A : Type, A → string.




End Callback.

(** * The claims about submission *)

Section Submission.
Variable clock : nat → string.
Variable JSON_stringify : ∀ A : Type, A → string.

(** Whatever makes [startVideoGeneration] or the read of the job id
    throw ends the run in the [catch] block of [realVideoGeneration]. *)
Lemma thrown_submission_fails s i f g p o m :
  runs s !! i = Some (mkRun f g p Submitting) →
  submission JSON_stringify o = Throw m →
  fails_with clock JSON_stringify s i o
    (js_or m "Failed to generate video. Please try again.").
Proof.
  intros Hr Hs.
  destruct (submitted_step clock JSON_stringify s i f g p o Hr)
    as (s' & E & R & Q & Rq).
  rewrite Hs in R, Q. exists s'. split; [exact E|].
  split; [exact (f_equal error Q)|].
  split; [exact (f_equal isGenerating Q)|].
  split; [exact (f_equal generatedVideo Q)|].
  split; [exact (f_equal unhandled Q)|].
  split; [exact Rq|].
  assert (Hf : submit_failed s' i).
  { exists f, g, p. rewrite R. apply list_lookup_insert_eq.
    eapply lookup_lt_Some; eauto. }
  intros tr s'' H.
  pose proof (failed_forever clock JSON_stringify s' i tr s'' Hf H) as Hf''.
  split; [exact Hf''|].
  apply (failed_refuses clock JSON_stringify s'' i Hf'').
Qed.

(** C7, as the code has it. When the submission of a run fails, the
    failure is reported in the step in which the answer is handled,
    through the error that the page shows: the message of the
    exception when the request got no answer or the body of the answer
    could not be read (a generic reason if that message is empty), the
    [detail] of the service when the service rejected the request
    with a non-empty string for it, and a generic reason when it
    rejected the request with a body whose [detail] is absent or
    falsy. The submission is not retried and the run never polls. *)
Theorem submission_failure_is_reported (s : State) (i : nat) (r : Run) :
  runs s !! i = Some r → r_phase r = Submitting →
  (∀ m,
     fails_with clock JSON_stringify s i (FetchRejected m)
       (js_or m "Failed to generate video. Please try again."))
  ∧ (∀ code text m,
       fails_with clock JSON_stringify s i (FetchResponse code text (inl m))
         (js_or m "Failed to generate video. Please try again."))
  ∧ (∀ code text body d,
       response_ok code = false →
       js_get "detail" body = Some (JString d) → d ≠ "" →
       fails_with clock JSON_stringify s i
         (FetchResponse code text (inr body)) d)
  ∧ (∀ code text body,
       response_ok code = false → body ≠ JNull →
       js_truthy (js_get "detail" body) = false →
       fails_with clock JSON_stringify s i
         (FetchResponse code text (inr body))
         "Failed to start video generation").
Proof.
  intros Hr Hph. destruct r as [f g p ph]. cbn in Hph. subst ph.
  split; [|split; [|split]].
  - intros m. eapply thrown_submission_fails; [exact Hr|reflexivity].
  - intros code text m.
    eapply thrown_submission_fails; [exact Hr|reflexivity].
  - intros code text body d Hok Hd Hne.
    assert (Ht : js_truthy (Some (JString d)) = true).
    { cbn. destruct (String.eqb_spec d ""); [contradiction|reflexivity]. }
    assert (E : js_or d "Failed to generate video. Please try again." = d)
      by (destruct d; [contradiction|reflexivity]).
    rewrite <- E.
    eapply thrown_submission_fails; [exact Hr|].
    unfold submission. rewrite Hok.
    destruct body; try discriminate Hd.
    rewrite Hd. unfold js_or_else. rewrite Ht. reflexivity.
  - intros code text body Hok Hnull Hd.
    change "Failed to start video generation"
      with (js_or "Failed to start video generation"
                  "Failed to generate video. Please try again.").
    eapply thrown_submission_fails; [exact Hr|].
    unfold submission. rewrite Hok.
    destruct body; try contradiction; unfold js_or_else; rewrite Hd;
      reflexivity.
Qed.

End Submission.

(** C7, as stated, on concrete answers. A proxy answers 502 with a
    page of HTML: what the page shows is the message of the JSON
    parser, not a generic reason. The service answers 422 with a list
    for its [detail]: what the page shows is not the reason that the
    service gave. *)
Lemma rejection_reason_is_not_generic :
  (∃ s, step noon braces submitting_state (Submitted 0 bad_gateway) = Some s
        ∧ error (world s) = "Unexpected token < in JSON at position 0"
        ∧ error (world s) ≠ "Failed to start video generation"
        ∧ error (world s) ≠ "Failed to generate video. Please try again.")
  ∧ (∃ s, step noon braces submitting_state (Submitted 0 unprocessable) = Some s
          ∧ error (world s) = "[object Object]").
Proof.
  split; eexists; (split; [vm_compute; reflexivity|]).
  - split; [reflexivity|]. split; discriminate.
  - reflexivity.
Qed.

(** * The single run *)

(** [handleSubmit] has no check of its own: called while "job-1" is
    being polled it submits again. The single run rests on the button
    being disabled while the page says that it is generating. *)
Lemma handleSubmit_has_no_guard :
  length (runs polling_state) = 1
  ∧ length (runs (handleSubmit noon braces polling_state)) = 2
  ∧ length (requests (world (handleSubmit noon braces polling_state)))
    = S (length (requests (world polling_state))).
Proof. repeat split. Qed.

(** C8. Two status queries of "job-1" are on their way. The first is
    answered with [completed]: the run is over and the button is
    enabled again. The user clicks it and "job-2" is being polled
    when the second answer arrives, again with [completed]: the page
    stops saying that it is generating while "job-2" is being polled,
    so the button is enabled, and one more click starts "job-3". Two
    polling loops are active, and both tick. *)
Theorem late_answer_allows_second_live_run :
  ∃ s,
    exec noon braces initialState
      (started
       ++ [IntervalStarts 0; IntervalStarts 0;
           StatusAnswered 0 1 (snapshot "completed" None) no_jobs;
           ClickGenerate; Submitted 1 (accepted "job-2");
           StatusAnswered 0 2 (snapshot "completed" None) no_jobs;
           ClickGenerate; Submitted 2 (accepted "job-3")]) = Some s
    ∧ live <$> runs s = [false; true; true]
    ∧ (∃ l1 l2, loop_of s 1 = Some l1 ∧ loop_of s 2 = Some l2
                ∧ intervalActive l1 = true ∧ intervalActive l2 = true
                ∧ currentJobId l1 = Some (JString "job-2")
                ∧ currentJobId l2 = Some (JString "job-3"))
    ∧ omap submitted_body (requests (world s))
      = [videoRequest_of (derivatives (formData initialWorld));
         videoRequest_of (derivatives (formData initialWorld));
         videoRequest_of (derivatives (formData initialWorld))]
    ∧ ∃ s', exec noon braces s [IntervalStarts 1; IntervalStarts 2] = Some s'
            ∧ drop 5 (requests (world s'))
              = [GetVideoStatus (Some (JString "job-2"));
                 GetVideoStatus (Some (JString "job-3"))].
Proof.
  eexists. split; [vm_compute; reflexivity|].
  split; [reflexivity|]. split; [eexists _, _; repeat split|].
  split; [reflexivity|].
  eexists. split; [vm_compute; reflexivity|]. reflexivity.
Qed.

(** * The consecutive-error counter *)



Section Counter.
Variable clock : nat → string.
Variable JSON_stringify : ∀ A : Type, A → string.





End Counter.



(** * Validation in the submit command *)

Section Validation.
Variable clock : nat → string.
Variable JSON_stringify : ∀ A : Type, A → string.

(** C10. [handleSubmit], invoked with a topic that is empty or only
    white space, or while the health check reports the backend as
    disconnected, returns at once: it starts no run, issues no request,
    leaves the generating flag as it was (so false stays false), and
    sets the validation message, changing nothing else. *)
Theorem handleSubmit_rejects_invalid (s : State) :
  forallb js_whitespace (topic (formData (world s))) = true
  ∨ backendConnected (world s) = false →
  runs (handleSubmit clock JSON_stringify s) = runs s
  ∧ requests (world (handleSubmit clock JSON_stringify s))
    = requests (world s)
  ∧ isGenerating (world (handleSubmit clock JSON_stringify s))
    = isGenerating (world s)
  ∧ (isGenerating (world s) = false →
     isGenerating (world (handleSubmit clock JSON_stringify s)) = false)
  ∧ error (world (handleSubmit clock JSON_stringify s))
    = (if forallb js_whitespace (topic (formData (world s)))
       then "Please enter a topic for your video"
       else "Backend is not connected. Please make sure the API server is running.")
  ∧ world (handleSubmit clock JSON_stringify s)
    = setError (error (world (handleSubmit clock JSON_stringify s))) (world s).
Proof.
  intros H. unfold handleSubmit.
  destruct (blank (topic (formData (world s)))) eqn:Hb.
  - apply blank_spec in Hb. rewrite Hb. simpl. auto 10.
  - destruct (forallb js_whitespace (topic (formData (world s)))) eqn:Hw.
    + apply blank_spec in Hw. congruence.
    + destruct H as [H|H]; [discriminate|]. rewrite H. simpl. auto 10.
Qed.

End Validation.

(** * The theorems at work on concrete runs *)

(** Validation on the freshly loaded page: no topic, backend not yet
    known to be up. *)
Lemma handleSubmit_rejects_invalid_witness :
  (forallb js_whitespace (topic (formData (world initialState))) = true
   ∨ backendConnected (world initialState) = false)
  ∧ error (world (handleSubmit noon braces initialState))
    = "Please enter a topic for your video"
  ∧ runs (handleSubmit noon braces initialState) = [].
Proof.
  assert (H : forallb js_whitespace (topic (formData (world initialState)))
              = true
              ∨ backendConnected (world initialState) = false)
    by (left; reflexivity).
  split; [exact H|].
  destruct (handleSubmit_rejects_invalid noon braces initialState H)
    as (Hr & _ & _ & _ & He & _).
  split; [exact He|exact Hr].
Defined.



(** Scenario D of the specification: the service declines the
    submission with the reason "invalid topic". *)
Lemma submission_failure_is_reported_witness :
  runs submitting_state !! 0
  = Some (mkRun (derivatives (formData initialWorld)) false 0 Submitting)
  ∧ response_ok 422 = false
  ∧ ∃ s', step noon braces submitting_state (Submitted 0 invalid_topic)
          = Some s'
          ∧ error (world s') = "invalid topic"
          ∧ isGenerating (world s') = false
          ∧ requests (world s') = requests (world submitting_state).
Proof.
  assert (Hr : runs submitting_state !! 0
               = Some (mkRun (derivatives (formData initialWorld)) false 0
                         Submitting)) by reflexivity.
  split; [exact Hr|]. split; [reflexivity|].
  destruct (submission_failure_is_reported noon braces submitting_state 0 _
              Hr eq_refl) as (_ & _ & H & _).
  destruct (H 422%N "" {| job_id := None; detail := Some "invalid topic" |}
              "invalid topic" eq_refl eq_refl)
    as (s' & E & He & Hg & _ & _ & Hq & _); [discriminate|].
  exists s'. split; [exact E|]. split; [exact He|]. split; [exact Hg|exact Hq].
Defined.


(** The callback of a query that was on its way still runs after the
    interval was cleared: "job-1" is completed and the page shows 100,
    then the answer to an earlier query arrives and the page shows
    30, next to the result. *)
Lemma late_answer_overwrites_progress :
  ∃ s s',
    exec noon braces polling_state
      [IntervalStarts 0; IntervalStarts 0;
       StatusAnswered 0 2 (snapshot "completed" None) no_jobs] = Some s
    ∧ progress (world s) = JInt 100
    ∧ isGenerating (world s) = false
    ∧ step noon braces s (IntervalStarts 0) = None
    ∧ step noon braces s (StatusAnswered 0 1 (processing 30) no_jobs) = Some s'
    ∧ progress (world s') = JInt 30
    ∧ isGenerating (world s') = false
    ∧ generatedVideo (world s') = generatedVideo (world s).
Proof.
  eexists _, _. split; [vm_compute; reflexivity|].
  split; [reflexivity|]. split; [reflexivity|]. split; [reflexivity|].
  split; [vm_compute; reflexivity|]. repeat split.
Qed.

(** * Further properties of the page *)

Lemma polling_state_reachable : reachable_page noon braces polling_state.
Proof. exists (Core <$> started). vm_compute. reflexivity. Qed.

Lemma completed_state_reachable : reachable_page noon braces completed_state.
Proof.
  exists (Core <$> (started
                    ++ [IntervalFires 0 (snapshot "completed" None) no_jobs])).
  vm_compute. reflexivity.
Qed.

Lemma failed_state_reachable : reachable_page noon braces failed_state.
Proof.
  exists (Core <$> (started
                    ++ [IntervalFires 0 (snapshot "failed" None) no_jobs])).
  vm_compute. reflexivity.
Qed.

Lemma exhausted_state_reachable : reachable_page noon braces exhausted_state.
Proof.
  exists (Core <$> (started
                    ++ polls 0 [(unreachable, no_jobs); (unreachable, no_jobs);
                                (unreachable, no_jobs)])).
  vm_compute. reflexivity.
Qed.

Lemma rejected_state_reachable : reachable_page noon braces rejected_state.
Proof.
  exists (Core <$> [Input derivatives; Health true; ClickGenerate;
                    Submitted 0 invalid_topic]).
  vm_compute. reflexivity.
Qed.

(** ** The requests on record *)

(** X10. In every state of the page the requests on record match the
    runs on record: the submissions are, in order, one per invocation
    of [realVideoGeneration], each with the form as it was at the
    click (so nothing is ever submitted twice or retried), every
    submitted form has a topic that is not blank, and every status
    query ever issued is for the job id of a run of the page. *)
Theorem submissions_match_runs (clock : nat → string)
    (JSON_stringify : ∀ A : Type, A → string) (s : State) :
  reachable_page clock JSON_stringify s →
  omap submitted_body (requests (world s))
  = (λ r, videoRequest_of (r_formData r)) <$> runs s
  ∧ (∀ i r, runs s !! i = Some r → blank (topic (r_formData r)) = false)
  ∧ (∀ job, GetVideoStatus job ∈ requests (world s) →
       ∃ i l, loop_of s i = Some l ∧ currentJobId l = job).
Proof.
  intros Hreach.
  assert (K : page_inv JSON_stringify (control_of s)
              ∧ requests_inv (control_of s)).
  { revert s Hreach.
    apply (control_invariant clock JSON_stringify
             (λ a, page_inv JSON_stringify a ∧ requests_inv a)).
    - split; [apply page_inv_initial|].
      split; [reflexivity|]. split; [constructor|].
      intros job Hjob. inversion Hjob.
    - intros a e a' (I & R) H. split; [eapply page_inv_step; eauto|].
      eapply requests_inv_step; [|exact R|exact H].
      apply (inv_runs _ _ I). }
  destruct K as (_ & Hb & Hf & Hq).
  split; [exact Hb|]. split.
  - intros i r Hr. exact (proj1 (Forall_lookup _ _) Hf i r Hr).
  - intros job Hjob. destruct (Hq job Hjob) as (i & f & g & p & l & Hr & Hl).
    exists i, l. split; [apply loop_of_run; eauto|exact Hl].
Qed.

(** ** The size of the debug console *)

Section Console.
Variable clock : nat → string.
Variable JSON_stringify : ∀ A : Type, A → string.

(** X11. In every state of the page the debug console holds at most
    21 entries, whatever was logged and however often. *)
Theorem debug_console_is_bounded (s : State) :
  reachable_page clock JSON_stringify s →
  (length (debugLogs (world s)) ≤ 21)%nat.
Proof.
  intros (tr & H).
  assert (B : log_bounded (world initialState))
    by (unfold log_bounded; simpl; lia).
  revert H B. generalize initialState.
  induction tr as [|e tr IH]; intros s0 H B.
  - injection H as <-. exact B.
  - simpl in H.
    destruct (step_page clock JSON_stringify s0 e) as [s1|] eqn:E;
      [|discriminate].
    exact (IH s1 H (log_bounded_step clock JSON_stringify _ _ _ E B)).
Qed.

End Console.

(** ** While the page says that it is generating *)

(** X12. While the page says that it is generating, the form cannot
    be edited and "Create Another" is not there, and the form on the
    page is the form that the most recent run captured and submitted:
    what the user reads in the form is what is being generated. *)
Theorem form_is_frozen_while_generating (clock : nat → string)
    (JSON_stringify : ∀ A : Type, A → string) (s : State) :
  reachable_page clock JSON_stringify s →
  isGenerating (world s) = true →
  (∃ r, newest s = Some r ∧ r_formData r = formData (world s))
  ∧ generatedVideo (world s) = None
  ∧ (∀ edit, step_page clock JSON_stringify s (Core (Input edit)) = None)
  ∧ step_page clock JSON_stringify s CreateAnother = None.
Proof.
  intros Hreach Hg.
  pose proof (page_inv_reachable clock JSON_stringify s Hreach) as I.
  destruct (inv_busy _ _ I Hg) as (Hnone & _ & Hl). cbn in Hnone, Hl.
  split; [exact Hl|]. split; [exact Hnone|].
  split; [intros edit; simpl; rewrite Hg, andb_false_r; reflexivity|].
  simpl. rewrite Hnone. reflexivity.
Qed.

Section PageProperties.
Variable clock : nat → string.
Variable JSON_stringify : ∀ A : Type, A → string.

(** ** The result on display *)

(** X2. In every state of the page a result on display is that of a
    run of the page whose interval was cleared: the page does not say
    that it is generating, title and duration are those of the form
    that the run captured, and the download link is that of the job of
    the run. The run need not be the most recent one. *)
Theorem result_belongs_to_a_stopped_run (s : State) (v : GeneratedVideo) :
  reachable_page clock JSON_stringify s →
  generatedVideo (world s) = Some v →
  isGenerating (world s) = false
  ∧ ∃ i r l,
      runs s !! i = Some r ∧ r_phase r = Polling l
      ∧ intervalActive l = false
      ∧ step clock JSON_stringify s (IntervalStarts i) = None
      ∧ gv_title v = topic (r_formData r)
      ∧ gv_duration v = pretty (duration (r_formData r)) +:+ ":00"
      ∧ gv_jobId v = currentJobId l
      ∧ downloadUrl v = API_BASE_URL +:+ "/api/video/"
                        +:+ js_template JSON_stringify (currentJobId l)
      ∧ gv_status v = "completed".
Proof.
  intros Hreach Hv.
  pose proof (page_inv_reachable clock JSON_stringify s Hreach) as I.
  split.
  - destruct (isGenerating (world s)) eqn:Hg; [|reflexivity].
    destruct (inv_busy _ _ I Hg) as (Hnone & _). cbn in Hnone. congruence.
  - destruct (inv_result _ _ I v Hv) as (i & f & g & p & l & Hr & -> & Hoff).
    cbn in Hr. exists i, (mkRun f g p (Polling l)), l.
    split; [exact Hr|]. split; [reflexivity|]. split; [exact Hoff|].
    split; [|repeat split].
    apply (cleared_refuses clock JSON_stringify s i l); [|exact Hoff].
    apply loop_of_run. eauto.
Qed.

(** X3. In every state of the page, [handleDownload] clicks a link
    exactly when a result is on display, and then the link points to
    the video of the job of a run of the page and saves it as
    magi_video_<job id>.mp4; the test on the URL never stops it. *)
Theorem download_follows_result (s : State) :
  reachable_page clock JSON_stringify s →
  match generatedVideo (world s) with
  | None => handleDownload JSON_stringify (world s) = None
  | Some v =>
      ∃ i l,
        loop_of s i = Some l
        ∧ handleDownload JSON_stringify (world s)
          = Some (API_BASE_URL +:+ "/api/video/"
                  +:+ js_template JSON_stringify (currentJobId l),
                  "magi_video_" +:+ js_template JSON_stringify (currentJobId l)
                  +:+ ".mp4")
  end.
Proof.
  intros Hreach.
  pose proof (page_inv_reachable clock JSON_stringify s Hreach) as I.
  unfold handleDownload.
  destruct (generatedVideo (world s)) as [v|] eqn:Hv; [|reflexivity].
  destruct (inv_result _ _ I v Hv) as (i & f & g & p & l & Hr & -> & _).
  cbn in Hr. exists i, l. split; [apply loop_of_run; eauto|].
  reflexivity.
Qed.

(** X14. In every state of the page every exception that has escaped
    from a handler is the one that the interval callback throws when
    polling is exhausted. *)
Theorem escaped_exceptions_are_exhausted_polls (s : State) (m : string) :
  reachable_page clock JSON_stringify s →
  m ∈ unhandled (world s) →
  ∃ cause,
    m = "Polling failed after 3 consecutive errors: " +:+ cause.
Proof.
  intros Hreach Hm.
  pose proof (page_inv_reachable clock JSON_stringify s Hreach) as I.
  pose proof (inv_unhandled _ _ I) as Hu. cbn in Hu.
  rewrite Forall_forall in Hu. destruct (Hu m Hm) as (cause & ->).
  exists cause. reflexivity.
Qed.

(** X15. In every state of the page: while the page says that it is
    generating it shows no error; and when it shows an error, the
    submission of one of its runs failed. *)
Theorem error_means_failed_submission (s : State) :
  reachable_page clock JSON_stringify s →
  (isGenerating (world s) = true → error (world s) = "")
  ∧ (error (world s) ≠ "" →
     isGenerating (world s) = false ∧ ∃ i, submit_failed s i).
Proof.
  intros Hreach.
  pose proof (page_inv_reachable clock JSON_stringify s Hreach) as I.
  assert (Hbusy : isGenerating (world s) = true → error (world s) = "").
  { intros Hg. destruct (inv_busy _ _ I Hg) as (_ & He & _). exact He. }
  split; [exact Hbusy|]. intros He. split.
  - destruct (isGenerating (world s)); [|reflexivity].
    exfalso. apply He. apply Hbusy. reflexivity.
  - destruct (inv_error _ _ I He) as (i & f & g & p & Hr).
    exists i, f, g, p. exact Hr.
Qed.

(** X13. "Create Another" takes the result away and empties the topic
    and nothing else of the form. In every state of the page in which
    it can be clicked, afterwards: nothing is generating; there is
    nothing to download; the button is disabled, so a click does
    nothing; the progress of the last result is still on the page; and
    once the user has typed a topic that is not blank, with the backend
    connected, the button is enabled again. *)
Theorem create_another_asks_for_a_topic (s s1 : State) :
  reachable_page clock JSON_stringify s →
  step_page clock JSON_stringify s CreateAnother = Some s1 →
  generatedVideo (world s1) = None
  ∧ handleDownload JSON_stringify (world s1) = None
  ∧ formData (world s1) = clearTopic (formData (world s))
  ∧ isGenerating (world s1) = false
  ∧ runs s1 = runs s
  ∧ requests (world s1) = requests (world s)
  ∧ click clock JSON_stringify s1 = s1
  ∧ progress (world s1) = progress (world s)
  ∧ ∀ edit, ∃ s2,
      step clock JSON_stringify s1 (Input edit) = Some s2
      ∧ formData (world s2) = edit (clearTopic (formData (world s)))
      ∧ (blank (topic (edit (clearTopic (formData (world s))))) = false →
         backendConnected (world s) = true →
         submit_disabled (world s2) = false).
Proof.
  intros Hreach H.
  pose proof (page_inv_reachable clock JSON_stringify s Hreach) as I.
  cbn [step_page] in H.
  destruct (generatedVideo (world s)) as [v|] eqn:Hv; [|discriminate].
  destruct (mounted (world s)) eqn:Hm; [|discriminate].
  injection H as <-.
  assert (Hg : isGenerating (world s) = false).
  { destruct (isGenerating (world s)) eqn:Hg; [|reflexivity].
    destruct (inv_busy _ _ I Hg) as (Hnone & _). cbn in Hnone. congruence. }
  cbn [world runs].
  split; [reflexivity|]. split; [reflexivity|]. split; [reflexivity|].
  split; [exact Hg|]. split; [reflexivity|]. split; [reflexivity|].
  split; [|split; [reflexivity|]].
  - unfold click, submit_disabled. cbn. rewrite orb_true_r. reflexivity.
  - intros edit. eexists. split.
    + cbn. rewrite Hm, Hg. reflexivity.
    + split; [reflexivity|]. intros Hb Hc.
      unfold submit_disabled. cbn. rewrite Hg, Hb, Hc. reflexivity.
Qed.

End PageProperties.

(** ** Diagnostics do not steer the page *)

Lemma same_control_step JSON_stringify a e1 e2 :
  same_control e1 e2 →
  control_step JSON_stringify a e1 = control_step JSON_stringify a e2.
Proof. intros []; destruct a as [[rs q] rq]; reflexivity. Qed.

(** X9. Diagnostics do not steer the page. Take two pages that agree
    on everything but the debug log, and give them the same events
    under two hosts whose clocks differ, and whose job list and health
    endpoint may answer differently: the same events are possible on
    both, and afterwards the two pages still agree on their runs, on
    every field of the page but the log, and on the requests that they
    issued. *)
Theorem diagnostics_do_not_steer (clock1 clock2 : nat → string)
    (JSON_stringify : ∀ A : Type, A → string)
    (tr1 tr2 : list PageEvent) (s1 s2 : State) :
  same_page s1 s2 → Forall2 same_control tr1 tr2 →
  match exec_page clock1 JSON_stringify s1 tr1,
        exec_page clock2 JSON_stringify s2 tr2 with
  | Some s1', Some s2' => same_page s1' s2'
  | None, None => True
  | _, _ => False
  end.
Proof.
  intros Hs Htr. revert s1 s2 Hs.
  induction Htr as [|e1 e2 tr1 tr2 He Htr IH]; intros s1 s2 Hs;
    [exact Hs|].
  cbn [exec_page].
  pose proof (step_page_control clock1 JSON_stringify s1 e1) as C1.
  pose proof (step_page_control clock2 JSON_stringify s2 e2) as C2.
  assert (E : control_of s1 = control_of s2).
  { destruct Hs as (Hr & Hq & Hrq). unfold control_of. congruence. }
  rewrite (same_control_step JSON_stringify _ e1 e2 He), E, <- C2 in C1.
  destruct (step_page clock1 JSON_stringify s1 e1) as [s1'|],
           (step_page clock2 JSON_stringify s2 e2) as [s2'|];
    try discriminate C1; [|exact I].
  apply IH. apply control_some in C1 as (Hr & Hq & Hrq).
  split; [exact Hr|]. split; [exact Hq|exact Hrq].
Qed.

(** ** The page that stays busy *)

Section Busy.
Variable clock : nat → string.
Variable JSON_stringify : ∀ A : Type, A → string.

(** What holds on while the page says that it is generating and no run
    has a timer or awaits an answer. *)
Lemma busy_step (P0 : Json) (n0 : nat) a e a' :
  page_inv JSON_stringify a ∧ Forall quiescent a.1.1
  ∧ isGenerating a.1.2 = true ∧ progress a.1.2 = P0
  ∧ length a.1.1 = n0 →
  control_step JSON_stringify a e = Some a' →
  page_inv JSON_stringify a' ∧ Forall quiescent a'.1.1
  ∧ isGenerating a'.1.2 = true ∧ progress a'.1.2 = P0
  ∧ length a'.1.1 = n0.
Proof.
  destruct a as [[rs q] rq]. intros (I & Hq & Hg & Hp & Hn) H.
  split; [eapply page_inv_step; eauto|].
  pose proof (inv_runs _ _ I) as Iruns.
  pose proof (inv_busy _ _ I Hg) as (Hnone & _).
  cbn in Hq, Hg, Hp, Hn, Iruns, Hnone.
  control_cases H; cbn; auto;
    try (pose proof (Forall_lookup_1 _ _ _ _ Hq Hr) as Hqr;
         cbn in Hqr; try contradiction; destruct Hqr as (Hoff & Hfl)).
  - unfold submit_disabled in Hb0. rewrite Hg in Hb0. discriminate.
  - apply ticking_spec in Hb as (Hb & _). congruence.
  - apply bool_decide_eq_true_1 in Hb. rewrite Hfl in Hb. inversion Hb.
  - apply ticking_spec in Hb as (Hb & _). congruence.
  - pose proof (Forall_lookup_1 _ _ _ _ Iruns Hr) as (Hfalse & _).
    cbn in Hfalse. subst g. cbn.
    split; [|rewrite length_insert; auto].
    apply Forall_insert; [exact Hq|]. cbn. auto.
Qed.

(** X5. Once the page says that it is generating while none of its
    runs has a timer or awaits an answer (as after a reported failure,
    an exhausted poll or the timeout, when no query is on its way any
    more), nothing that can happen on the page ends it: in every later
    state it still says generating, the button and the form stay
    disabled, no run is started and none can tick or be answered, and
    the error, the progress and the missing result stay as they
    were. *)
Theorem busy_without_run_is_forever (s : State) (tr : list PageEvent)
    (s' : State) :
  reachable_page clock JSON_stringify s →
  isGenerating (world s) = true →
  (∀ i r, runs s !! i = Some r → quiescent r) →
  exec_page clock JSON_stringify s tr = Some s' →
  isGenerating (world s') = true
  ∧ length (runs s') = length (runs s)
  ∧ (∀ i r, runs s' !! i = Some r → quiescent r)
  ∧ click clock JSON_stringify s' = s'
  ∧ (∀ edit, step clock JSON_stringify s' (Input edit) = None)
  ∧ (∀ i o, step clock JSON_stringify s' (Submitted i o) = None)
  ∧ (∀ i, step clock JSON_stringify s' (IntervalStarts i) = None)
  ∧ (∀ i k o jobs,
       step clock JSON_stringify s' (StatusAnswered i k o jobs) = None)
  ∧ (∀ i o jobs, step clock JSON_stringify s' (IntervalFires i o jobs) = None)
  ∧ error (world s') = ""
  ∧ progress (world s') = progress (world s)
  ∧ generatedVideo (world s') = None.
Proof.
  intros Hreach Hg Hq H.
  pose proof (page_inv_reachable clock JSON_stringify s Hreach) as I.
  assert (K : page_inv JSON_stringify (control_of s')
              ∧ Forall quiescent (runs s')
              ∧ isGenerating (world s') = true
              ∧ progress (world s') = progress (world s)
              ∧ length (runs s') = length (runs s)).
  { refine (control_exec clock JSON_stringify
              (λ a, page_inv JSON_stringify a ∧ Forall quiescent a.1.1
                    ∧ isGenerating a.1.2 = true
                    ∧ progress a.1.2 = progress (world s)
                    ∧ length a.1.1 = length (runs s))
              _ tr s s' _ H).
    - intros a e a'. apply busy_step.
    - split; [exact I|]. split; [apply Forall_lookup; exact Hq|].
      split; [exact Hg|]. split; reflexivity. }
  destruct K as (I' & Hq' & Hg' & Hp' & Hn').
  destruct (inv_busy _ _ I' Hg') as (Hnone & He & _). cbn in Hnone, He.
  rewrite Forall_lookup in Hq'.
  split; [exact Hg'|]. split; [exact Hn'|]. split; [exact Hq'|].
  split; [unfold click, submit_disabled; rewrite Hg'; reflexivity|].
  split; [intros edit; cbn; rewrite Hg', andb_false_r; reflexivity|].
  split; [|split; [|split; [|split]]].
  - intros i o. unfold step.
    destruct (runs s' !! i) as [[f g p [| |l]]|] eqn:Hr; try reflexivity.
    destruct (Hq' _ _ Hr).
  - intros i. unfold step.
    destruct (runs s' !! i) as [[f g p [| |l]]|] eqn:Hr; try reflexivity.
    destruct (Hq' _ _ Hr) as (Hoff & _). cbn in Hoff.
    unfold ticking. rewrite Hoff. reflexivity.
  - intros i k o jobs. unfold step.
    destruct (runs s' !! i) as [[f g p [| |l]]|] eqn:Hr; try reflexivity.
    destruct (Hq' _ _ Hr) as (_ & Hfl). cbn in Hfl. rewrite Hfl.
    reflexivity.
  - intros i o jobs. unfold step.
    destruct (runs s' !! i) as [[f g p [| |l]]|] eqn:Hr; try reflexivity.
    destruct (Hq' _ _ Hr) as (Hoff & _). cbn in Hoff.
    unfold ticking. rewrite Hoff. reflexivity.
  - split; [exact He|]. split; [exact Hp'|exact Hnone].
Qed.

End Busy.

(** ** The timeout *)

Section TimeoutGuard.
Variable clock : nat → string.
Variable JSON_stringify : ∀ A : Type, A → string.

(** No event but its own firing takes the timeout of run [n] away. *)
Lemma pending_step a e a' n fn gn pn ln :
  control_step JSON_stringify a e = Some a' →
  e ≠ Core (TimeoutFires n) →
  a.1.1 !! n = Some (mkRun fn gn pn (Polling ln)) →
  timeoutPending ln = true →
  ∃ l', a'.1.1 !! n = Some (mkRun fn gn pn (Polling l'))
        ∧ timeoutPending l' = true.
Proof.
  destruct a as [[rs q] rq]. intros H Hne Hn Hpend. cbn in Hn.
  pose proof (lookup_lt_Some _ _ _ Hn) as Hlt.
  control_cases H; cbn [fst snd];
    try (exists ln; split; [exact Hn|exact Hpend]; fail).
  - exists ln. split; [apply lookup_app_l_Some; exact Hn|exact Hpend].
  - exists ln. split; [|exact Hpend].
    rewrite list_lookup_insert_ne; [exact Hn|].
    intros ->. rewrite Hr in Hn. discriminate.
  - destruct (decide (i = n)) as [->|Hi].
    + rewrite Hr in Hn. injection Hn as -> -> -> ->.
      eexists. rewrite list_lookup_insert_eq by exact Hlt.
      split; [reflexivity|exact Hpend].
    + exists ln. rewrite list_lookup_insert_ne by exact Hi. auto.
  - destruct (decide (i = n)) as [->|Hi].
    + rewrite Hr in Hn. injection Hn as -> -> -> ->.
      eexists. rewrite list_lookup_insert_eq by exact Hlt.
      split; [reflexivity|].
      destruct (answered_loop_fields (landed k ln) (answer o))
        as (_ & _ & _ & -> & _). exact Hpend.
    + exists ln. rewrite list_lookup_insert_ne by exact Hi. auto.
  - destruct (decide (i = n)) as [->|Hi].
    + rewrite Hr in Hn. injection Hn as -> -> -> ->.
      eexists. rewrite list_lookup_insert_eq by exact Hlt.
      split; [reflexivity|]. unfold poll_loop.
      destruct (answered_loop_fields (setPollCount (S (pollCount ln)) ln)
                  (answer o)) as (_ & _ & _ & -> & _). exact Hpend.
    + exists ln. rewrite list_lookup_insert_ne by exact Hi. auto.
  - destruct (decide (i = n)) as [->|Hi]; [contradiction|].
    exists ln. rewrite list_lookup_insert_ne by exact Hi. auto.
Qed.

Lemma pending_exec tr : ∀ s s' n fn gn pn ln,
  exec_page clock JSON_stringify s tr = Some s' →
  Forall (λ e, e ≠ Core (TimeoutFires n)) tr →
  runs s !! n = Some (mkRun fn gn pn (Polling ln)) →
  timeoutPending ln = true →
  ∃ l', runs s' !! n = Some (mkRun fn gn pn (Polling l'))
        ∧ timeoutPending l' = true.
Proof.
  induction tr as [|e tr IH]; intros s s' n fn gn pn ln H Hne Hn Hpend.
  - injection H as <-. eauto.
  - cbn [exec_page] in H.
    destruct (step_page clock JSON_stringify s e) as [s1|] eqn:E;
      [|discriminate].
    apply Forall_cons in Hne as (Hne & Hrest).
    apply step_page_cases in E.
    destruct (pending_step _ _ _ n fn gn pn ln E Hne Hn Hpend)
      as (l1 & Hn1 & Hpend1).
    exact (IH s1 s' n fn gn pn l1 H Hrest Hn1 Hpend1).
Qed.

(** X6. The timeout of a run is never cancelled and fires once. In
    every state of the page: as long as it has not fired it stays
    pending, whatever becomes of the run (completed, failed,
    exhausted) and of the page (left, entered again); when it fires it
    clears the interval and changes nothing else but the log, not the
    error, not the generating flag, not the queries on their way, and
    issues no request; its warning is appended to the log if the
    instance of the page that started the run is still on the screen,
    and is lost otherwise; after that it cannot fire again. *)
Theorem timeout_is_never_cancelled (s : State) (i : nat) (r : Run)
    (l : Loop) :
  reachable_page clock JSON_stringify s →
  runs s !! i = Some r → r_phase r = Polling l → timeoutPending l = true →
  (∀ tr s', exec_page clock JSON_stringify s tr = Some s' →
     Forall (λ e, e ≠ Core (TimeoutFires i)) tr →
     ∃ l', loop_of s' i = Some l' ∧ timeoutPending l' = true)
  ∧ ∃ s1,
      step clock JSON_stringify s (TimeoutFires i) = Some s1
      ∧ loop_of s1 i
        = Some (setIntervalActive false (setTimeoutPending false l))
      ∧ quiet (world s1) = quiet (world s)
      ∧ requests (world s1) = requests (world s)
      ∧ debugLogs (world s1)
        = (if shown (r_page r) (world s)
           then pushDebugLog (debugLogs (world s))
                  (mkDebugLog (clock (dateReads (world s)))
                              "⏰ 15 minute timeout reached" warning)
           else debugLogs (world s))
      ∧ ∀ tr s', exec_page clock JSON_stringify s1 tr = Some s' →
          step clock JSON_stringify s' (TimeoutFires i) = None.
Proof.
  intros Hreach Hr Hph Hpend. destruct r as [f g p ph]. cbn in Hph. subst ph.
  pose proof (page_inv_reachable clock JSON_stringify s Hreach) as I.
  pose proof (Forall_lookup_1 _ _ _ _ (inv_runs _ _ I) Hr) as (Hg & _).
  cbn in Hg. subst g.
  pose proof (lookup_lt_Some _ _ _ Hr) as Hlt.
  split.
  - intros tr s' H Hne.
    destruct (pending_exec tr s s' i f false p l H Hne Hr Hpend)
      as (l' & Hr' & Hpend').
    exists l'. split; [apply loop_of_run; eauto|exact Hpend'].
  - pose proof (timeoutCallback_log clock p (world s) (setTimeoutPending false l))
      as Hlog.
    destruct (timeoutCallback_run clock p false (world s)
                (setTimeoutPending false l)) as (w' & Ew & Q & Rq).
    rewrite Ew in Hlog. cbn [fst snd] in Hlog.
    eexists. split; [unfold step; rewrite Hr, Hpend, Ew; reflexivity|].
    cbn [world runs settle].
    split; [unfold loop_of; cbn [runs];
            rewrite list_lookup_insert_eq by exact Hlt; reflexivity|].
    split; [exact Q|]. split; [exact Rq|].
    split; [rewrite Hlog; apply debugLogs_logged|].
    intros tr s' H.
    match type of H with
    | exec_page _ _ ?s1 _ = _ =>
        assert (Hr1 : runs s1 !! i
                      = Some (mkRun f false p (Polling
                           (setIntervalActive false (setTimeoutPending false l)))))
          by (cbn [runs]; apply list_lookup_insert_eq; exact Hlt);
        destruct (runs_evolve_exec clock JSON_stringify s1 tr s' H i _ Hr1)
          as ([f' g' p' ph'] & Hr' & _ & _ & _ & He)
    end.
    cbn in He. destruct ph' as [| |l']; try contradiction.
    destruct He as (_ & _ & Ht & _).
    unfold step. rewrite Hr'.
    destruct (timeoutPending l'); [|reflexivity].
    specialize (Ht eq_refl). discriminate.
Qed.

End TimeoutGuard.

(** ** Ticks that are answered at once *)




Section Serial.
Variable clock : nat → string.
Variable JSON_stringify : ∀ A : Type, A → string.






End Serial.

(** * The further properties at work on concrete runs *)

(** The result of "job-1". *)
Lemma result_belongs_to_a_stopped_run_witness :
  reachable_page noon braces completed_state
  ∧ (∃ v, generatedVideo (world completed_state) = Some v
          ∧ downloadUrl v = "http://localhost:8000/api/video/job-1")
  ∧ isGenerating (world completed_state) = false.
Proof.
  split; [exact completed_state_reachable|].
  split; [eexists; split; reflexivity|].
  destruct (result_belongs_to_a_stopped_run noon braces completed_state _
              completed_state_reachable eq_refl) as (Hg & _).
  exact Hg.
Defined.

Lemma download_follows_result_witness :
  reachable_page noon braces completed_state
  ∧ ∃ i l,
      loop_of completed_state i = Some l
      ∧ handleDownload braces (world completed_state)
        = Some (API_BASE_URL +:+ "/api/video/"
                +:+ js_template braces (currentJobId l),
                "magi_video_" +:+ js_template braces (currentJobId l)
                +:+ ".mp4").
Proof.
  split; [exact completed_state_reachable|].
  pose proof (download_follows_result noon braces completed_state
                completed_state_reachable) as H.
  revert H.
  destruct (generatedVideo (world completed_state)) as [v|] eqn:Hv;
    [intros H; exact H|vm_compute in Hv; discriminate Hv].
Defined.

(** After the service reported the job as failed, nothing on the page
    ends the generation: not a click, not the debug buttons, not the
    timeout, not leaving the page and coming back. *)
Lemma busy_without_run_is_forever_witness :
  reachable_page noon braces failed_state
  ∧ isGenerating (world failed_state) = true
  ∧ (∀ i r, runs failed_state !! i = Some r → quiescent r)
  ∧ ∃ s',
      exec_page noon braces failed_state
        [Core ClickGenerate; ListJobs no_jobs; Core (TimeoutFires 0);
         Leave; Enter; Core ClickGenerate] = Some s'
      ∧ isGenerating (world s') = true
      ∧ error (world s') = "".
Proof.
  assert (Hdead : ∀ i r, runs failed_state !! i = Some r → quiescent r).
  { intros [|i] r H; vm_compute in H; [|discriminate].
    injection H as <-. split; reflexivity. }
  split; [exact failed_state_reachable|]. split; [reflexivity|].
  split; [exact Hdead|].
  eexists. split; [vm_compute; reflexivity|].
  match goal with
  | |- isGenerating (world ?s') = _ ∧ _ =>
      destruct (busy_without_run_is_forever noon braces failed_state
                  [Core ClickGenerate; ListJobs no_jobs; Core (TimeoutFires 0);
                   Leave; Enter; Core ClickGenerate]
                  s' failed_state_reachable eq_refl Hdead
                  ltac:(vm_compute; reflexivity))
        as (Hg & _ & _ & _ & _ & _ & _ & _ & _ & He & _)
  end.
  split; [exact Hg|exact He].
Defined.

Lemma timeout_is_never_cancelled_witness :
  reachable_page noon braces polling_state
  ∧ runs polling_state !! 0
    = Some (mkRun (derivatives (formData initialWorld)) false 0
              (Polling job1_loop))
  ∧ timeoutPending job1_loop = true
  ∧ ∃ s1,
      step noon braces polling_state (TimeoutFires 0) = Some s1
      ∧ quiet (world s1) = quiet (world polling_state).
Proof.
  assert (Hr : runs polling_state !! 0
               = Some (mkRun (derivatives (formData initialWorld)) false 0
                         (Polling job1_loop))) by reflexivity.
  split; [exact polling_state_reachable|]. split; [exact Hr|].
  split; [reflexivity|].
  destruct (timeout_is_never_cancelled noon braces polling_state 0 _ job1_loop
              polling_state_reachable Hr eq_refl eq_refl)
    as (_ & s1 & E & _ & Q & _).
  exists s1. split; [exact E|exact Q].
Defined.



(** Two clocks and two different job lists. *)
Lemma diagnostics_do_not_steer_witness :
  same_page polling_state polling_state
  ∧ Forall2 same_control
      [Core (IntervalFires 0 (processing 10) no_jobs); ListJobs no_jobs]
      [Core (IntervalFires 0 (processing 10)
               (FetchResponse 200 "" (inr "[]")));
       ListJobs (FetchResponse 200 "" (inr "[]"))]
  ∧ match exec_page noon braces polling_state
            [Core (IntervalFires 0 (processing 10) no_jobs); ListJobs no_jobs],
          exec_page counting braces polling_state
            [Core (IntervalFires 0 (processing 10)
                     (FetchResponse 200 "" (inr "[]")));
             ListJobs (FetchResponse 200 "" (inr "[]"))] with
    | Some s1', Some s2' => same_page s1' s2'
    | None, None => True
    | _, _ => False
    end.
Proof.
  assert (Hs : same_page polling_state polling_state)
    by (split; [|split]; reflexivity).
  assert (Htr : Forall2 same_control
      [Core (IntervalFires 0 (processing 10) no_jobs); ListJobs no_jobs]
      [Core (IntervalFires 0 (processing 10)
               (FetchResponse 200 "" (inr "[]")));
       ListJobs (FetchResponse 200 "" (inr "[]"))])
    by (repeat constructor).
  split; [exact Hs|]. split; [exact Htr|].
  exact (diagnostics_do_not_steer noon counting braces _ _ _ _ Hs Htr).
Defined.

Lemma submissions_match_runs_witness :
  reachable_page noon braces polling_state
  ∧ omap submitted_body (requests (world polling_state))
    = [videoRequest_of (formData (world ready_state))].
Proof.
  split; [exact polling_state_reachable|].
  destruct (submissions_match_runs noon braces polling_state
              polling_state_reachable) as (H & _).
  rewrite H. vm_compute. reflexivity.
Defined.

Lemma debug_console_is_bounded_witness :
  reachable_page noon braces completed_state
  ∧ (length (debugLogs (world completed_state)) ≤ 21)%nat.
Proof.
  split; [exact completed_state_reachable|].
  exact (debug_console_is_bounded noon braces completed_state
           completed_state_reachable).
Defined.

Lemma form_is_frozen_while_generating_witness :
  reachable_page noon braces polling_state
  ∧ isGenerating (world polling_state) = true
  ∧ generatedVideo (world polling_state) = None
  ∧ step_page noon braces polling_state (Core (Input derivatives)) = None.
Proof.
  split; [exact polling_state_reachable|]. split; [reflexivity|].
  destruct (form_is_frozen_while_generating noon braces polling_state
              polling_state_reachable eq_refl) as (_ & Hv & Hi & _).
  split; [exact Hv|apply Hi].
Defined.

Lemma create_another_asks_for_a_topic_witness :
  reachable_page noon braces completed_state
  ∧ ∃ s1,
      step_page noon braces completed_state CreateAnother = Some s1
      ∧ click noon braces s1 = s1
      ∧ progress (world s1) = JInt 100.
Proof.
  split; [exact completed_state_reachable|].
  eexists. split; [reflexivity|].
  match goal with
  | |- click _ _ ?s1 = _ ∧ _ =>
      destruct (create_another_asks_for_a_topic noon braces completed_state s1
                  completed_state_reachable eq_refl)
        as (_ & _ & _ & _ & _ & _ & Hc & Hp & _)
  end.
  split; [exact Hc|]. rewrite Hp. reflexivity.
Defined.

(** After three queries without an answer. *)
Lemma escaped_exceptions_are_exhausted_polls_witness :
  reachable_page noon braces exhausted_state
  ∧ "Polling failed after 3 consecutive errors: Failed to fetch"
    ∈ unhandled (world exhausted_state)
  ∧ ∃ cause,
      "Polling failed after 3 consecutive errors: Failed to fetch"
      = "Polling failed after 3 consecutive errors: " +:+ cause.
Proof.
  assert (Hu : "Polling failed after 3 consecutive errors: Failed to fetch"
               ∈ unhandled (world exhausted_state))
    by (vm_compute; apply list_elem_of_here).
  split; [exact exhausted_state_reachable|]. split; [exact Hu|].
  exact (escaped_exceptions_are_exhausted_polls noon braces exhausted_state _
           exhausted_state_reachable Hu).
Defined.

(** After the service declined the submission. *)
Lemma error_means_failed_submission_witness :
  reachable_page noon braces rejected_state
  ∧ error (world rejected_state) = "invalid topic"
  ∧ isGenerating (world rejected_state) = false.
Proof.
  assert (He : error (world rejected_state) = "invalid topic")
    by (vm_compute; reflexivity).
  split; [exact rejected_state_reachable|]. split; [exact He|].
  destruct (error_means_failed_submission noon braces rejected_state
              rejected_state_reachable) as (_ & H).
  destruct H as (Hg & _); [rewrite He; discriminate|].
  exact Hg.
Defined.
